(** * mediaDL backend (src/app.py): job store, progress hook, artifact
      resolution, the /download controller, the progress stream and the reaper.

    The development is a shallow embedding of [src/app.py].

    - Python [str] values are modelled by [string]; the text functions below
      ([lower], [strip], the regular expressions) are the ASCII fragment of
      their Python counterparts (characters above 127 are left untouched).
    - Python [int] values are [Z]. Wall-clock readings ([time.time()],
      [os.path.getctime]) are exact rationals [Q] (seconds); the rounding of
      IEEE doubles is not modelled.
    - [JOBS] is a [gmap string job]; the record type [job] has exactly the
      keys the only creation site (in [download]) writes.
    - The extraction engine, the HTTP client and the file system are not part
      of the repository: their answers are supplied by explicit oracle
      records ([engine], [fs], [http_response]). *)

From Stdlib Require Import ZArith QArith Qround Qabs Lqa Ascii String.
From stdpp Require Import gmap strings list fin_maps pretty.

Open Scope string_scope.
Open Scope Z_scope.

(** ** Text helpers (Python [str] methods used by the source) *)

Module Text.

Definition is_upper (c : ascii) : bool :=
  let n := nat_of_ascii c in (65 <=? n)%nat && (n <=? 90)%nat.

Definition lower_char (c : ascii) : ascii :=
  if is_upper c then ascii_of_nat (nat_of_ascii c + 32) else c.

(** [s.lower()] *)
Fixpoint lower (s : string) : string :=
  match s with
  | EmptyString => EmptyString
  | String c r => String (lower_char c) (lower r)
  end.

(** [s.startswith(p)] *)
Fixpoint startswith (p s : string) : bool :=
  match p, s with
  | EmptyString, _ => true
  | String a p', String b s' => if Ascii.eqb a b then startswith p' s' else false
  | String _ _, EmptyString => false
  end.

(** [sub in s] *)
Fixpoint contains (sub s : string) : bool :=
  if startswith sub s then true
  else match s with
       | EmptyString => false
       | String _ r => contains sub r
       end.


(** Drop the first [n] characters: [s[n:]]. *)
Fixpoint drop (n : nat) (s : string) : string :=
  match n, s with
  | O, _ => s
  | S k, String _ r => drop k r
  | S _, EmptyString => EmptyString
  end.

(** Keep the first [n] characters: [s[:n]]. *)
Fixpoint take (n : nat) (s : string) : string :=
  match n, s with
  | S k, String c r => String c (take k r)
  | _, _ => EmptyString
  end.

(** ASCII white space as [str.isspace] sees it: TAB, LF, VT, FF, CR,
    FS, GS, RS, US and the space. *)
Definition is_space (c : ascii) : bool :=
  let n := nat_of_ascii c in
  ((9 <=? n)%nat && (n <=? 13)%nat) || ((28 <=? n)%nat && (n <=? 32)%nat).

Fixpoint lstrip (s : string) : string :=
  match s with
  | String c r => if is_space c then lstrip r else s
  | EmptyString => EmptyString
  end.

(** [s.strip()] *)
Definition strip (s : string) : string :=
  String.rev (lstrip (String.rev (lstrip s))).

(** Python truthiness of a string. *)
Definition nonempty (s : string) : bool :=
  match s with EmptyString => false | String _ _ => true end.

(** Membership in a list of strings: [s in [a, b, c]]. *)
Definition mem (s : string) (l : list string) : bool :=
  existsb (String.eqb s) l.

End Text.

(** ** URL normalisation and platform detection *)

(** Leading run of the letter [x], for the pattern [^x+]. *)
Fixpoint skip_x (s : string) : nat * string :=
  match s with
  | String "x"%char r => let '(n, t) := skip_x r in (S n, t)
  | _ => (O, s)
  end.

(** [re.sub(r"^x+https?://", "https://", url)]: the pattern is anchored, so
    at most the prefix is rewritten; [x+] has to swallow every leading [x]
    because the next pattern character is [h]. *)
Definition re_sub_xhttp (url : string) : string :=
  let '(n, t) := skip_x url in
  match n with
  | O => url
  | S _ =>
      if Text.startswith "https://" t then "https://" +:+ Text.drop 8 t
      else if Text.startswith "http://" t then "https://" +:+ Text.drop 7 t
      else url
  end.

(** [sanitize_url]: [(url or "").strip()] then the prefix rewrite. A missing
    or null field is [None]. *)
Definition sanitize_url (url : option string) : string :=
  re_sub_xhttp (Text.strip (default "" url)).

Definition detect_platform (url : string) : string :=
  let url_lower := Text.lower url in
  if Text.contains "instagram.com" url_lower then "instagram"
  else if Text.contains "facebook.com" url_lower
          || Text.contains "fb.watch" url_lower
          || Text.contains "fb.com" url_lower then "facebook"
  else if Text.contains "youtube.com" url_lower
          || Text.contains "youtu.be" url_lower then "youtube"
  else if Text.contains "twitter.com" url_lower
          || Text.contains "x.com" url_lower
          || Text.contains "t.co" url_lower then "twitter"
  else if Text.contains "linkedin.com" url_lower then "linkedin"
  else if Text.contains "snapchat.com" url_lower
          || Text.contains "snap.com" url_lower then "snapchat"
  else "unknown".

(** ** The job store *)

Definition Qgtb (x y : Q) : bool := negb (Qle_bool x y).

(** Rounding of a non-negative rational to the nearest integer, ties to the
    even one. *)
Definition round_half_even (x : Q) : Z :=
  let f := Qfloor x in
  match Qcompare (x - inject_Z f) (1 # 2) with
  | Lt => f
  | Gt => f + 1
  | Eq => if Z.even f then f else f + 1
  end.

(** The format [f"{x:.1f}"], on the exact value of [x]. *)
Definition format_1f (x : Q) : string :=
  let t := round_half_even (Qabs x * 10) in
  (if Qgtb 0 x then "-" else "") +:+ pretty (t / 10) +:+ "." +:+ pretty (t mod 10).

(** One value of [JOBS]: the dict literal written at creation. [last_update]
    is the clock reading that [datetime.now().isoformat()] prints. *)
Record job := mk_job {
  status : string;
  percent : Z;
  downloaded_bytes : Z;
  total_bytes : Z;
  speed : string;
  filename : option string;
  error : option string;
  platform : string;
  media_type : string;
  start_time : Q;
  last_update : Q
}.

(** The record literal of [download] ([JOBS[job_id] = {...}]). *)
Definition new_job (platform media_type : string) (now : Q) : job :=
  {| status := "queued"; percent := 0; downloaded_bytes := 0; total_bytes := 0;
     speed := "0 KB/s"; filename := None; error := None;
     platform := platform; media_type := media_type;
     start_time := now; last_update := now |}.

(** Arguments of one call of [update_job_progress] (after [job_id]); the
    keyword arguments default to [None]. *)
Record update_args := mk_args {
  a_status : string;
  a_percent : option Z;
  a_downloaded_bytes : option Z;
  a_total_bytes : option Z;
  a_speed : option string;
  a_filename : option string;
  a_error : option string
}.

(** [update_job_progress(job_id, status, percent)] and the other call shapes
    used in the source. *)
Definition upd (st : string) (p : option Z) : update_args :=
  mk_args st p None None None None None.

(** The derived speed: [downloaded_bytes / elapsed_time], reported in MB/s
    above 1 MiB/s and in KB/s otherwise. *)
Definition derived_speed (downloaded : Z) (elapsed : Q) : string :=
  let current_speed := (inject_Z downloaded / elapsed)%Q in
  if Qgtb current_speed (inject_Z (1024 * 1024))
  then format_1f (current_speed / inject_Z (1024 * 1024)) +:+ " MB/s"
  else format_1f (current_speed / inject_Z 1024) +:+ " KB/s".

(** Body of [update_job_progress] on the record found under [job_id]; [now]
    stands for both clock readings of the call ([datetime.now()] and
    [time.time()]). The key [start_time] is always present (see [new_job]),
    so the test ["start_time" in JOBS[job_id]] is true. *)
Definition update_record (now : Q) (a : update_args) (j : job) : job :=
  let elapsed_time := (now - start_time j)%Q in
  {| percent := default (percent j) (a_percent a);
     status := if Text.nonempty (a_status a) then a_status a else status j;
     downloaded_bytes := default (downloaded_bytes j) (a_downloaded_bytes a);
     total_bytes := default (total_bytes j) (a_total_bytes a);
     speed :=
       (let written := default (speed j) (a_speed a) in
        match a_downloaded_bytes a with
        | Some downloaded =>
            if Qgtb elapsed_time 0 then derived_speed downloaded elapsed_time
            else written
        | None => written
        end);
     filename := match a_filename a with Some f => Some f | None => filename j end;
     error := match a_error a with Some e => Some e | None => error j end;
     platform := platform j;
     media_type := media_type j;
     start_time := start_time j;
     last_update := now |}.

Definition update_job_progress (now : Q) (job_id : string) (a : update_args)
    (JOBS : gmap string job) : gmap string job :=
  match JOBS !! job_id with
  | Some j => <[job_id := update_record now a j]> JOBS
  | None => JOBS
  end.

(** ** The progress hook *)

(** The dict [d] the engine passes to the hook. A key that is absent or
    [None] is [None] here, except [error], where [d.get("error", default)]
    tells the two apart: [None] is an absent key, [Some None] a key holding
    [None]. *)
Record hook_event := mk_event {
  d_status : option string;
  d_total_bytes : option Z;
  d_total_bytes_estimate : option Z;
  d_downloaded_bytes : option Z;
  d_speed : option Q;
  d_error : option (option string)
}.

(** Truthiness of an optional number: neither [None] nor zero. *)
Definition truthy (x : option Z) : bool :=
  match x with Some v => negb (v =? 0) | None => false end.

(** [a or b] on optional numbers. *)
Definition py_or (a b : option Z) : option Z := if truthy a then a else b.

(** The hook's [speed_str]: [None] unless [d["speed"]] is truthy. *)
Definition format_speed (speed : option Q) : option string :=
  match speed with
  | Some s =>
      if Qeq_bool s 0 then None
      else if Qgtb s (inject_Z (1024 * 1024))
           then Some (format_1f (s / inject_Z (1024 * 1024)) +:+ " MB/s")
           else Some (format_1f (s / inject_Z 1024) +:+ " KB/s")
  | None => None
  end.

(** [int(downloaded * 100 / total)]: true division, then truncation toward
    zero, on the exact quotient. *)
Definition raw_pct (downloaded total : Z) : Z := Z.quot (downloaded * 100) total.

(** The closure returned by [create_ydl_progress_hook(job_id)], applied to
    [d]. A missing [status] compares unequal to the four literals, like the
    empty string. *)
Definition hook (now : Q) (job_id : string) (d : hook_event)
    (JOBS : gmap string job) : gmap string job :=
  match JOBS !! job_id with
  | None => JOBS
  | Some j =>
      let status := default "" (d_status d) in
      if String.eqb status "downloading" then
        let total := py_or (d_total_bytes d) (d_total_bytes_estimate d) in
        let downloaded := d_downloaded_bytes d in
        let speed_str := format_speed (d_speed d) in
        if truthy total && truthy downloaded then
          let pct := raw_pct (default 0 downloaded) (default 0 total) in
          let adjusted_pct := Z.max 20 (Z.min 90 pct) in
          update_job_progress now job_id
            (mk_args "downloading" (Some adjusted_pct) downloaded total speed_str None None)
            JOBS
        else if truthy downloaded then
          update_job_progress now job_id
            (mk_args "downloading" None downloaded None speed_str None None) JOBS
        else
          let current_pct := percent j in
          let new_pct := Z.min 85 (current_pct + 1) in
          update_job_progress now job_id
            (mk_args "downloading" (Some new_pct) None None speed_str None None) JOBS
      else if String.eqb status "finished" then
        update_job_progress now job_id (upd "processing" (Some 92)) JOBS
      else if String.eqb status "postprocessing" then
        update_job_progress now job_id (upd "processing" (Some 95)) JOBS
      else if String.eqb status "error" then
        let error_msg := default (Some "Unknown error") (d_error d) in
        update_job_progress now job_id
          (mk_args "error" None None None None None error_msg) JOBS
      else JOBS
  end.

(** ** Store writes as data *)

(** The three ways the source writes to the record of one job: the dict
    literal of [download], a call of [update_job_progress], and a call of the
    progress hook by the engine. *)
Inductive op :=
| OpCreate (platform media_type : string)
| OpUpdate (a : update_args)
| OpHook (d : hook_event).

Definition apply_op (now : Q) (job_id : string) (o : op)
    (JOBS : gmap string job) : gmap string job :=
  match o with
  | OpCreate p m => <[job_id := new_job p m now]> JOBS
  | OpUpdate a => update_job_progress now job_id a JOBS
  | OpHook d => hook now job_id d JOBS
  end.

(** Writes applied in order; the [k]-th write reads the clock [clock k]. *)
Fixpoint run_ops (clock : nat -> Q) (k : nat) (job_id : string) (ops : list op)
    (JOBS : gmap string job) : gmap string job :=
  match ops with
  | [] => JOBS
  | o :: rest => run_ops clock (S k) job_id rest (apply_op (clock k) job_id o JOBS)
  end.

(** The store after each write, oldest first. *)
Fixpoint history (clock : nat -> Q) (k : nat) (job_id : string) (ops : list op)
    (JOBS : gmap string job) : list (gmap string job) :=
  match ops with
  | [] => []
  | o :: rest =>
      let JOBS' := apply_op (clock k) job_id o JOBS in
      JOBS' :: history clock (S k) job_id rest JOBS'
  end.

(** The [percent] values a reader of the record of [job_id] can see, one per
    write. *)
Definition percents (job_id : string) (h : list (gmap string job)) : list Z :=
  omap (fun JOBS => percent <$> JOBS !! job_id) h.

(** ** Paths and the file system *)

(** The flavour of [os.path]: [posixpath] has one separator, [ntpath] two. *)
Record os_path := mk_os_path { sep : ascii; altsep : option ascii }.

Definition posixpath : os_path := mk_os_path "/" None.
Definition ntpath : os_path := mk_os_path "\" (Some "/"%char).

(** [s.rfind(c)] for a one-character [c], scanning from index [i]; [last] is
    the answer so far. *)
Fixpoint rfind_from (c : ascii) (s : string) (i last : Z) : Z :=
  match s with
  | EmptyString => last
  | String a r => rfind_from c r (i + 1) (if Ascii.eqb a c then i else last)
  end.

Definition rfind (c : ascii) (s : string) : Z := rfind_from c s 0 (-1).

Definition sep_index (P : os_path) (p : string) : Z :=
  match altsep P with
  | Some a => Z.max (rfind (sep P) p) (rfind a p)
  | None => rfind (sep P) p
  end.

(** [os.path.splitext] ([genericpath._splitext]): the extension starts at the
    last dot of the last path component, unless that component has only
    leading dots before it. *)
Definition splitext (P : os_path) (p : string) : string * string :=
  let sepIndex := sep_index P p in
  let dotIndex := rfind "." p in
  if (sepIndex <? dotIndex)
     && existsb (fun i => negb (bool_decide (String.get (Z.to_nat i) p = Some "."%char)))
          (seqZ (sepIndex + 1) (dotIndex - (sepIndex + 1)))
  then (Text.take (Z.to_nat dotIndex) p, Text.drop (Z.to_nat dotIndex) p)
  else (p, "").

(** [os.path.basename]: what follows the last separator (drive prefixes
    aside). *)
Definition basename (P : os_path) (p : string) : string :=
  Text.drop (Z.to_nat (sep_index P p + 1)) p.

(** [os.path.join(dir, name)] for a relative [name] and a [dir] that does
    not end with a separator. *)
Definition path_join (P : os_path) (dir name : string) : string :=
  dir +:+ String (sep P) name.

(** What the source asks of the disk. *)
Record fs := mk_fs {
  path_exists : string -> bool;      (* os.path.exists *)
  getsize : string -> Z;             (* os.path.getsize *)
  getctime : string -> Q;            (* os.path.getctime *)
  glob_star : string -> list string  (* glob.glob(os.path.join(dir, "*")) *)
}.

(** The disk after a file of [size] bytes was written at [path]. *)
Definition fs_write (path : string) (size : Z) (disk : fs) : fs :=
  {| path_exists := fun p => if String.eqb p path then true else path_exists disk p;
     getsize := fun p => if String.eqb p path then size else getsize disk p;
     getctime := getctime disk;
     glob_star := glob_star disk |}.

(** ** Artifact resolution *)

Definition audio_kinds : list string := ["audio"; "audio only"; "audio-only"].

Definition audio_extensions : list string := [".mp3"; ".m4a"; ".opus"; ".ogg"; ".wav"; ".aac"].
Definition photo_extensions : list string := [".jpg"; ".jpeg"; ".png"; ".webp"; ".gif"].
Definition video_extensions : list string := [".mp4"; ".mkv"; ".webm"; ".mov"; ".avi"; ".flv"].

Definition extensions_for (media_type : string) : list string :=
  let media_type_lower := Text.lower media_type in
  if Text.mem media_type_lower audio_kinds then audio_extensions
  else if String.eqb media_type_lower "photo" then photo_extensions
  else video_extensions.

(** The loop [for ext in extensions: ... return candidate]. *)
Fixpoint first_existing (disk : fs) (base : string) (extensions : list string) : option string :=
  match extensions with
  | [] => None
  | ext :: rest =>
      let candidate := base +:+ ext in
      if path_exists disk candidate then Some candidate
      else first_existing disk base rest
  end.

(** [max(l, key=key)] seeded with [best]: the first element with the
    greatest key. *)
Fixpoint max_by {A} (key : A -> Q) (best : A) (l : list A) : A :=
  match l with
  | [] => best
  | x :: r => if Qgtb (key x) (key best) then max_by key x r else max_by key best r
  end.

(** The last resort of [find_downloaded_file]: the most recently created file
    of the download directory with one of the extensions, if it is younger
    than 120 seconds. All clock readings of the comprehension are [now]. *)
Definition find_recent (P : os_path) (disk : fs) (now : Q) (download_dir : string)
    (extensions : list string) : option string :=
  let all_files := glob_star disk download_dir in
  let filtered_files :=
    List.filter (fun f => Text.mem (Text.lower (snd (splitext P f))) extensions) all_files in
  let recent_files :=
    List.filter (fun f => Qgtb 120 (now - getctime disk f)) filtered_files in
  match recent_files with
  | [] => None
  | f :: rest => Some (max_by (getctime disk) f rest)
  end.

Definition find_downloaded_file (P : os_path) (disk : fs) (now : Q)
    (prepared_path media_type download_dir : string) : option string :=
  if Text.nonempty prepared_path && path_exists disk prepared_path
  then Some prepared_path
  else
    let base := if Text.nonempty prepared_path
                then Some (fst (splitext P prepared_path)) else None in
    let extensions := extensions_for media_type in
    let by_extension :=
      match base with
      | Some b => if Text.nonempty b then first_existing disk b extensions else None
      | None => None
      end in
    match by_extension with
    | Some candidate => Some candidate
    | None => find_recent P disk now download_dir extensions
    end.

(** ** File names *)

(** The character class of the first substitution: the control characters
    0 to 31 and the nine characters less-than, greater-than, colon, double
    quote, slash, backslash, bar, question mark and star. *)
Definition is_invalid_char (c : ascii) : bool :=
  let n := nat_of_ascii c in
  (n <=? 31)%nat
  || existsb (Nat.eqb n) [60; 62; 58; 34; 47; 92; 124; 63; 42]%nat.

Fixpoint replace_invalid (s : string) : string :=
  match s with
  | EmptyString => EmptyString
  | String c r => String (if is_invalid_char c then "_"%char else c) (replace_invalid r)
  end.

(** [re.sub(r"\s+", " ", name)]; [in_run] tells that the previous character
    was white space. *)
Fixpoint collapse_ws (in_run : bool) (s : string) : string :=
  match s with
  | EmptyString => EmptyString
  | String c r =>
      if Text.is_space c
      then (if in_run then collapse_ws true r else String " " (collapse_ws true r))
      else String c (collapse_ws false r)
  end.

Definition safe_filename (name : string) : string :=
  let name := replace_invalid name in
  let name := Text.strip (collapse_ws false name) in
  Text.take 180 name.

(** [s.replace(old, new)] for a non-empty [old]; [skip] counts the
    characters of a match that are still to be dropped. *)
Fixpoint replace_go (old new : string) (skip : nat) (s : string) : string :=
  match s with
  | EmptyString => EmptyString
  | String c r =>
      match skip with
      | S k => replace_go old new k r
      | O =>
          if Text.startswith old s
          then new +:+ replace_go old new (String.length old - 1) r
          else String c (replace_go old new O r)
      end
  end.

Definition str_replace (old new s : string) : string := replace_go old new O s.

(** ** Engine options *)

(** The values that occur in the options dict. [PProgressHooks [job_id]] is
    the list [[create_ydl_progress_hook(job_id)]]. *)
#[local] Unset Elimination Schemes.
Inductive pyval :=
| PStr (s : string)
| PBool (b : bool)
| PNone
| PProgressHooks (job_ids : list string)
| PList (l : list pyval)
| PDict (l : list (string * pyval)).
#[local] Set Elimination Schemes.

Definition FFMPEG_LOCATION : string := "C:\ffmpeg\bin".

Definition get_cookies_for_platform (platform : string) : gmap string pyval :=
  if String.eqb platform "facebook" then
    list_to_map [("cookiefile", PNone);
                 ("extractor_args",
                  PDict [("facebook", PDict [("skip_dash_manifest", PBool true)])])]
  else if String.eqb platform "twitter" then
    list_to_map [("extractor_args",
                  PDict [("twitter", PDict [("api", PList [PStr "graphql"])])])]
  else if String.eqb platform "instagram" then
    list_to_map [("extractor_args",
                  PDict [("instagram", PDict [("skip_dash_manifest", PBool true)])])]
  else ∅.

(** [opts.update(d)]: the keys of [d] win. *)
Definition dict_update (d opts : gmap string pyval) : gmap string pyval := d ∪ opts.

(** The format selection of the video branch, per platform. *)
Definition video_opts (platform : string) : gmap string pyval :=
  if String.eqb platform "youtube" then
    list_to_map [("format", PStr "bestvideo[ext=mp4]+bestaudio[ext=m4a]/bestvideo+bestaudio/best");
                 ("merge_output_format", PStr "mp4")]
  else if String.eqb platform "facebook" then
    list_to_map [("format", PStr "best"); ("merge_output_format", PStr "mp4")]
  else if String.eqb platform "twitter" then list_to_map [("format", PStr "best")]
  else if String.eqb platform "instagram" then list_to_map [("format", PStr "best")]
  else if String.eqb platform "linkedin" then list_to_map [("format", PStr "best")]
  else if String.eqb platform "snapchat" then list_to_map [("format", PStr "best")]
  else list_to_map [("format", PStr "bestvideo+bestaudio/best");
                    ("merge_output_format", PStr "mp4")].

Definition audio_opts : gmap string pyval :=
  list_to_map [("format", PStr "bestaudio/best");
               ("postprocessors",
                PList [PDict [("key", PStr "FFmpegExtractAudio");
                              ("preferredcodec", PStr "mp3");
                              ("preferredquality", PStr "192")]])].

Definition photo_opts : gmap string pyval :=
  list_to_map [("format", PStr "best"); ("writethumbnail", PBool true);
               ("skip_download", PBool true)].

(** The dict literal [opts] at the start of [make_ydl_opts]. *)
Definition base_opts (P : os_path) (DOWNLOAD_DIR job_id : string) : gmap string pyval :=
  let outtmpl := path_join P DOWNLOAD_DIR "%(title).150s_%(id)s.%(ext)s" in
  list_to_map
    [("outtmpl", PStr outtmpl); ("noplaylist", PBool true); ("quiet", PBool false);
     ("no_warnings", PBool false); ("progress_hooks", PProgressHooks [job_id]);
     ("ffmpeg_location", PStr FFMPEG_LOCATION); ("nocheckcertificate", PBool true);
     ("user_agent", PStr "Mozilla/5.0 (Windows NT 10.0; Win64; x64) AppleWebKit/537.36 (KHTML, like Gecko) Chrome/120.0.0.0 Safari/537.36");
     ("verbose", PBool true); ("progress", PBool true)].

Definition make_ydl_opts (P : os_path) (DOWNLOAD_DIR job_id media_type platform : string)
    : gmap string pyval :=
  let opts := base_opts P DOWNLOAD_DIR job_id in
  let platform_config := get_cookies_for_platform platform in
  let opts := dict_update platform_config opts in
  let media_type_lower := Text.lower media_type in
  if Text.mem media_type_lower audio_kinds then dict_update audio_opts opts
  else if String.eqb media_type_lower "photo" then dict_update photo_opts opts
  else dict_update (video_opts platform) opts.

(** ** The controller monad *)

(** Python exceptions, by the only distinction the handlers of [download]
    make: [yt_dlp.utils.DownloadError] or any other [Exception]. *)
Inductive exn :=
| DownloadError (msg : string)
| Exception (msg : string).

(** [str(e)] *)
Definition str_exn (e : exn) : string :=
  match e with DownloadError m => m | Exception m => m end.

(** The JSON body of a response of [/download]. *)
Inductive body :=
| ErrorBody (message : string)
| SuccessBody (job_id filename download_url platform media_type : string) (file_size : Z).

Record response := mk_response { code : Z; payload : body }.

(** A step of the handler ends with a value, raises, or returns a response
    from the middle of the function. *)
Inductive outcome (A : Type) :=
| Val (a : A)
| Raise (e : exn)
| Return (r : response).
Arguments Val {A} a.
Arguments Raise {A} e.
Arguments Return {A} r.

(** Handler code: the store writes it performs, in order, and its outcome. *)
Definition M (A : Type) : Type := list op * outcome A.

Definition ret {A} (a : A) : M A := ([], Val a).

Definition bind {A B} (m : M A) (f : A -> M B) : M B :=
  match m with
  | (w, Val a) => let '(w', o) := f a in ((w ++ w')%list, o)
  | (w, Raise e) => (w, Raise e)
  | (w, Return r) => (w, Return r)
  end.

Definition tell (o : op) : M unit := ([o], Val tt).
Definition raise {A} (e : exn) : M A := ([], Raise e).
Definition return_response {A} (r : response) : M A := ([], Return r).

(** [try: m except Exception as e: h e] *)
Definition try_except {A} (m : M A) (h : exn -> M A) : M A :=
  match m with
  | (w, Raise e) => let '(w', o) := h e in ((w ++ w')%list, o)
  | other => other
  end.

Declare Scope handler_scope.
Delimit Scope handler_scope with handler.
Notation "x <- m ;; k" := (bind m (fun x => k))
  (at level 90, m at level 80, right associativity) : handler_scope.
Notation "m ;;; k" := (bind m (fun _ => k))
  (at level 90, right associativity) : handler_scope.
Open Scope handler_scope.

(** [update_job_progress(job_id, ...)] inside the handler. *)
Definition update (a : update_args) : M unit := tell (OpUpdate a).

(** ** The collaborators *)

(** The keys of the engine's info dict the source reads. *)
Record info_dict := mk_info {
  i_ext : option string;
  i_vcodec : option string;
  i_thumbnail : option string;
  i_thumbnails : list (option Z * option string);  (* preference, url *)
  i_url : option string;
  i_title : option string;
  i_id : option string
}.

(** What [requests.get] answers: the error of [raise_for_status] if any, the
    two headers read, and the lengths of the chunks [iter_content] yields. *)
Record http_response := mk_http {
  status_error : option string;
  content_length : Z;
  content_type : string;
  chunks : list Z
}.

(** One request's view of the outside world. *)
Record engine := mk_engine {
  uuid4 : string;                          (* str(uuid.uuid4()) *)
  uuid_hex8 : string;                      (* uuid.uuid4().hex[:8] *)
  probe : gmap string pyval -> string -> exn + option info_dict;
                                           (* ydl.extract_info(url, download=False) *)
  fetch : gmap string pyval -> string -> list hook_event * (exn + info_dict);
                                           (* ydl.extract_info(url, download=True)
                                              and the hook calls it makes *)
  prepare_filename : gmap string pyval -> info_dict -> exn + string;
  requests_get : string -> string + http_response;
  disk : fs;                               (* the disk once the engine is back *)
  time_find : Q;                           (* time.time() in find_downloaded_file *)
  rename_error : bool;                     (* os.rename raises *)
  time_rename : Q;                         (* time.time() at the rename *)
  quote : string -> string                 (* urllib.parse.quote(_, safe='') *)
}.

(** Building the engine object ([yt_dlp.YoutubeDL(ydl_opts)]) and leaving its
    [with] block are taken not to raise; [print] is not modelled. *)

(** Truthiness of an optional string. *)
Definition str_truthy (s : option string) : bool :=
  match s with Some t => Text.nonempty t | None => false end.

(** Stable insertion sort by an integer key, as [sorted(l, key=key)]. *)
Fixpoint insert_by {A} (key : A -> Z) (x : A) (l : list A) : list A :=
  match l with
  | [] => [x]
  | y :: r => if key x <=? key y then x :: l else y :: insert_by key x r
  end.

Definition sorted_by {A} (key : A -> Z) (l : list A) : list A :=
  foldr (fun x acc => insert_by key x acc) [] l.

(** ** The /download controller *)

(** The JSON body of the request; both fields are strings when present. *)
Record request := mk_request {
  r_url : option string;
  r_mediaType : option string
}.

Definition error_response (c : Z) (message : string) : response :=
  mk_response c (ErrorBody message).

Section Controller.

Context (P : os_path) (DOWNLOAD_DIR : string) (E : engine).

(** The loop over [response.iter_content]: [downloaded] is the running
    byte count; the product [percent * 0.15] is the exact one. *)
Fixpoint write_chunks (total_size downloaded : Z) (chunks : list Z) : M Z :=
  match chunks with
  | [] => ret downloaded
  | len :: rest =>
      if len =? 0 then write_chunks total_size downloaded rest
      else
        let downloaded := downloaded + len in
        (if 0 <? total_size then
           let percent := raw_pct downloaded total_size in
           let adjusted_percent := 80 + Z.quot (percent * 15) 100 in
           update (mk_args "downloading" (Some adjusted_percent)
                     (Some downloaded) (Some total_size) None None None)
         else ret tt) ;;;
        write_chunks total_size downloaded rest
  end.

(** [download_image_directly(url, info, job_id)]: the path of the image and
    the disk with the image written. *)
Definition download_image_directly (info : info_dict) : M (string * fs) :=
  update (upd "downloading" (Some 50)) ;;;
  let image_url :=
    if str_truthy (i_thumbnail info) then i_thumbnail info
    else match i_thumbnails info with
         | _ :: _ =>
             let thumbnails := sorted_by (fun x => default 0 (fst x)) (i_thumbnails info) in
             last thumbnails ≫= snd
         | [] => if str_truthy (i_url info) then i_url info else None
         end in
  match image_url with
  | Some image_url =>
      if negb (Text.nonempty image_url)
      then raise (Exception "No image URL found in media information")
      else
        update (upd "downloading" (Some 60)) ;;;
        let title :=
          if str_truthy (i_title info) then default "" (i_title info)
          else if str_truthy (i_id info) then default "" (i_id info)
          else "image" in
        let media_id := default (uuid_hex8 E) (i_id info) in
        let safe_title := safe_filename title in
        let filename := safe_title +:+ "_" +:+ media_id +:+ ".jpg" in
        let filepath := path_join P DOWNLOAD_DIR filename in
        update (upd "downloading" (Some 70)) ;;;
        match requests_get E image_url with
        | inl msg => raise (Exception msg)
        | inr response =>
            match status_error response with
            | Some msg => raise (Exception msg)
            | None =>
                let total_size := content_length response in
                let content_type := Text.lower (content_type response) in
                let filepath :=
                  if Text.contains "png" content_type then str_replace ".jpg" ".png" filepath
                  else if Text.contains "webp" content_type then str_replace ".jpg" ".webp" filepath
                  else if Text.contains "gif" content_type then str_replace ".jpg" ".gif" filepath
                  else filepath in
                update (mk_args "downloading" (Some 80) (Some 0) (Some total_size)
                          None None None) ;;;
                downloaded <- write_chunks total_size 0 (chunks response) ;;
                update (upd "downloading" (Some 95)) ;;;
                let disk' := fs_write filepath downloaded (disk E) in
                if negb (path_exists disk' filepath) || (getsize disk' filepath =? 0)
                then raise (Exception "Image download failed - file is empty")
                else ret (filepath, disk')
            end
        end
  | None => raise (Exception "No image URL found in media information")
  end.

(** The classification of a failed metadata probe. *)
Definition probe_failure (platform : string) (extract_error : exn) : exn :=
  let error_msg := str_exn extract_error in
  let l := Text.lower error_msg in
  if Text.contains "private" l
  then Exception "This content is private and cannot be downloaded"
  else if Text.contains "not available" l || Text.contains "unavailable" l
  then Exception "This content is not available or has been removed"
  else if Text.contains "login" l || Text.contains "sign in" l
  then Exception "This content requires login. Please use public content."
  else if Text.contains "unsupported url" l
  then Exception ("This URL is not supported for " +:+ platform)
  else Exception ("Cannot access this content: " +:+ error_msg).

(** The photo branch of [download]. *)
Definition photo_handling (url platform : string) (info : info_dict) : M (string * fs) :=
  let file_ext := Text.lower (default "" (i_ext info)) in
  let vcodec := default "" (i_vcodec info) in
  let is_image :=
    if Text.mem file_ext ["jpg"; "jpeg"; "png"; "webp"; "gif"] then true
    else if String.eqb vcodec "none" && str_truthy (i_thumbnail info) then true
    else if String.eqb platform "instagram"
            && (Text.contains "/p/" url || Text.contains "img" url) then true
    else if str_truthy (i_thumbnail info) && negb (str_truthy (i_url info)) then true
    else false in
  try_except (download_image_directly info)
    (fun img_error =>
       if negb is_image then
         update (mk_args "error" None None None None None
                   (Some "This URL contains a video, not a photo")) ;;;
         return_response
           (error_response 400
              "This URL contains a video, not a photo. Please select 'Video' or 'Reel' instead.")
       else raise (Exception ("Failed to download photo: " +:+ str_exn img_error))).

(** The video/audio branch of [download]: the download is delegated to the
    engine, which calls the hook while it works. *)
Definition engine_handling (ydl_opts : gmap string pyval) (url media_type : string)
    : M (string * fs) :=
  update (upd "preparing" (Some 45)) ;;;
  let '(events, result) := fetch E ydl_opts url in
  (map OpHook events, Val tt) ;;;
  match result with
  | inl download_error =>
      let error_msg := str_exn download_error in
      if Text.contains "format" (Text.lower error_msg)
      then raise (Exception "No suitable video/audio format found for this content")
      else raise (Exception ("Download failed: " +:+ error_msg))
  | inr info =>
      match prepare_filename E ydl_opts info with
      | inl e => raise e
      | inr prepared =>
          update (upd "finding file" (Some 90)) ;;;
          let final_path :=
            find_downloaded_file P (disk E) (time_find E) prepared media_type DOWNLOAD_DIR in
          if str_truthy final_path then ret (default "" final_path, disk E)
          else
            let final_path :=
              match glob_star (disk E) DOWNLOAD_DIR with
              | f :: rest => Some (max_by (getctime (disk E)) f rest)
              | [] => final_path
              end in
            if negb (str_truthy final_path)
               || negb (path_exists (disk E) (default "" final_path))
            then raise (Exception ("Download completed but " +:+ media_type
                                   +:+ " file not found. Please try again."))
            else ret (default "" final_path, disk E)
      end
  end.

(** The end of the [with] block: checks, renaming, the final write. *)
Definition finalize (job_id platform media_type final_path : string) (disk : fs)
    : M response :=
  if negb (path_exists disk final_path)
  then raise (Exception "Download completed but file not found on server")
  else
    let file_size := getsize disk final_path in
    if file_size =? 0 then raise (Exception "Downloaded file is empty")
    else
      let filename := basename P final_path in
      let safe_name := safe_filename filename in
      let filename :=
        if String.eqb safe_name filename then filename
        else
          let new_path := path_join P DOWNLOAD_DIR safe_name in
          let safe_name :=
            if path_exists disk new_path then
              let '(name, ext) := splitext P safe_name in
              name +:+ "_" +:+ pretty (Qfloor (time_rename E)) +:+ ext
            else safe_name in
          if rename_error E then basename P final_path else safe_name in
      update (mk_args "done" (Some 100) None None None (Some filename) None) ;;;
      ret (mk_response 200
             (SuccessBody job_id filename
                ("http://127.0.0.1:5000/files/" +:+ quote E filename)
                platform media_type file_size)).

(** The messages of the [except yt_dlp.utils.DownloadError] handler. *)
Definition friendly_message (error_msg : string) : string :=
  let l := Text.lower error_msg in
  if Text.contains "private" l
  then "This content is private and cannot be downloaded"
  else if Text.contains "not available" l || Text.contains "video unavailable" l
  then "This content is not available or has been removed"
  else if Text.contains "login" l || Text.contains "sign in" l
  then "This content requires login and cannot be downloaded"
  else if Text.contains "unsupported url" l
  then "This URL format is not supported"
  else error_msg.

(** The two [except] clauses around the body of [download]. Every raise of
    the body happens after the job was created, so [job_id] is set. *)
Definition handle (m : M response) : list op * response :=
  match m with
  | (w, Val r) => (w, r)
  | (w, Return r) => (w, r)
  | (w, Raise (DownloadError error_msg)) =>
      ((w ++ [OpUpdate (mk_args "error" None None None None None (Some error_msg))])%list,
       error_response 400 (friendly_message error_msg))
  | (w, Raise (Exception error_msg)) =>
      ((w ++ [OpUpdate (mk_args "error" None None None None None (Some error_msg))])%list,
       error_response 500 error_msg)
  end.

(** The branch on the media type after the probe: direct image retrieval
    for photos, the engine for everything else. *)
Definition media_handling (ydl_opts : gmap string pyval)
    (url media_type platform : string) (info : info_dict) : M (string * fs) :=
  if String.eqb (Text.lower media_type) "photo"
  then photo_handling url platform info
  else engine_handling ydl_opts url media_type.

(** What follows the creation of the job. *)
Definition run_job (job_id url media_type platform : string) : M response :=
  tell (OpCreate platform media_type) ;;;
  update (upd "starting" (Some 10)) ;;;
  let ydl_opts := make_ydl_opts P DOWNLOAD_DIR job_id media_type platform in
  update (upd "extracting info" (Some 20)) ;;;
  info <- match probe E ydl_opts url with
          | inl extract_error => raise (probe_failure platform extract_error)
          | inr info => ret info
          end ;;
  match info with
  | None => raise (Exception "Could not extract media information from URL")
  | Some info =>
      update (upd "extracting info" (Some 35)) ;;;
      found <- media_handling ydl_opts url media_type platform info ;;
      finalize job_id platform media_type (fst found) (snd found)
  end.

(** [download()]: the writes to the record of the new job (none if the
    request is refused) and the response. *)
Definition download (req : request) : list op * response :=
  let url := sanitize_url (r_url req) in
  let media_type := default "Video" (r_mediaType req) in
  if negb (Text.nonempty url)
  then ([], error_response 400 "URL is required")
  else if negb (Text.startswith "http://" url || Text.startswith "https://" url)
  then ([], error_response 400
              "Invalid URL format. URL must start with http:// or https://")
  else
    let platform := detect_platform url in
    if String.eqb platform "unknown"
    then ([], error_response 400
                "Unsupported platform. Please use Instagram, Facebook, YouTube, Twitter/X, LinkedIn, or Snapchat URLs.")
    else
      let job_id := uuid4 E in
      handle (run_job job_id url media_type platform).

End Controller.

(** ** The progress stream *)

(** The fields of a record that every payload carries. *)
Record snapshot := mk_snapshot {
  s_status : string;
  s_percent : Z;
  s_downloaded_bytes : Z;
  s_total_bytes : Z;
  s_speed : string;
  s_filename : option string;
  s_error : option string
}.

Definition snapshot_of (j : job) : snapshot :=
  mk_snapshot (status j) (percent j) (downloaded_bytes j) (total_bytes j)
    (speed j) (filename j) (error j).

(** One server-sent event, by the dict that is serialised: the two-key error
    dict, the initial dict (no [estimated_time] key) and the loop's dict. *)
Inductive sse :=
| EvError (message : string)
| EvInitial (s : snapshot) (message : option string)
| EvPayload (s : snapshot) (estimated_time : option string) (message : string).

#[global] Instance snapshot_eq_dec : EqDecision snapshot.
Proof. solve_decision. Defined.
#[global] Instance sse_eq_dec : EqDecision sse.
Proof. solve_decision. Defined.

Definition get_status_message (status : string) (percent : Z) : string :=
  if String.eqb status "queued" then "Waiting to start..."
  else if String.eqb status "starting" then "Starting download..."
  else if String.eqb status "extracting info" then "Extracting media information..."
  else if String.eqb status "preparing" then "Preparing download..."
  else if String.eqb status "downloading" then "Downloading... " +:+ pretty percent +:+ "%"
  else if String.eqb status "processing" then "Processing media file..."
  else if String.eqb status "finding file" then "Finalizing download..."
  else if String.eqb status "done" then "Download complete!"
  else if String.eqb status "error" then "An error occurred"
  else "Processing... " +:+ pretty percent +:+ "%".

(** [estimated_time] of one iteration; [now] is the clock reading. *)
Definition estimate (now : Q) (j : job) : option string :=
  if (0 <? percent j) && (percent j <? 100) then
    let elapsed := (now - start_time j)%Q in
    if Qgtb elapsed 0 && (5 <? percent j) then
      let total_estimated := (elapsed / (inject_Z (percent j) / 100))%Q in
      let remaining := (total_estimated - elapsed)%Q in
      if Qgtb remaining 0 then
        if Qgtb remaining 60 then
          let minutes := Qfloor (remaining / 60) in
          let seconds := Qfloor (remaining - 60 * inject_Z minutes) in
          Some (pretty minutes +:+ "m " +:+ pretty seconds +:+ "s")
        else Some (pretty (Qfloor remaining) +:+ "s")
      else None
    else None
  else None.

(** What one turn of the [while True] loop observes: the store and the four
    clock readings it takes. *)
Record poll := mk_poll {
  p_jobs : gmap string job;
  p_time_estimate : Q;
  p_time_heartbeat : Q;
  p_time_sent : Q;
  p_time_timeout : Q
}.

Definition timeout_seconds : Q := 60 * 10.

(** The loop of [event_stream]. The result is the events yielded and whether
    the generator has finished; with no observation left it is suspended in
    [time.sleep]. *)
Fixpoint stream_loop (job_id : string) (start_time : Q) (last_sent : option sse)
    (last_progress_time : Q) (polls : list poll) : list sse * bool :=
  match polls with
  | [] => ([], false)
  | p :: rest =>
      match p_jobs p !! job_id with
      | None => ([EvError "Job not found"], true)
      | Some job =>
          let estimated_time := estimate (p_time_estimate p) job in
          let encoded :=
            EvPayload (snapshot_of job) estimated_time
              (get_status_message (status job) (percent job)) in
          let send :=
            negb (bool_decide (Some encoded = last_sent))
            || Qgtb (p_time_heartbeat p - last_progress_time) 1 in
          let sent := if send then [encoded] else [] in
          let last_sent := if send then Some encoded else last_sent in
          let last_progress_time := if send then p_time_sent p else last_progress_time in
          if String.eqb (status job) "done" then
            let s := snapshot_of job in
            let final :=
              EvPayload (mk_snapshot (s_status s) 100 (s_downloaded_bytes s)
                           (s_total_bytes s) (s_speed s) (s_filename s) (s_error s))
                estimated_time "Download complete!" in
            ((sent ++ [final])%list, true)
          else if String.eqb (status job) "error" then
            ((sent ++ [encoded])%list, true)
          else if Qgtb (p_time_timeout p - start_time) timeout_seconds then
            ((sent ++ [EvError "Download timeout - please try again"])%list, true)
          else
            let '(later, finished) :=
              stream_loop job_id start_time last_sent last_progress_time rest in
            ((sent ++ later)%list, finished)
      end
  end.

(** What a stream observes from its first line to the loop. *)
Record stream_env := mk_stream_env {
  jobs_at_check : gmap string job;     (* JOBS at [if job_id not in JOBS] *)
  time_start : Q;                      (* start_time = time.time() *)
  time_first_progress : Q;             (* last_progress_time = time.time() *)
  jobs_at_snapshot : gmap string job;  (* JOBS at the initial JOBS.get *)
  polls : list poll
}.

(** The generator [event_stream] of [progress(job_id)]. *)
Definition event_stream (job_id : string) (W : stream_env) : list sse * bool :=
  match jobs_at_check W !! job_id with
  | None => ([EvError "Job not found"], true)
  | Some _ =>
      let initial :=
        match jobs_at_snapshot W !! job_id with
        | Some job =>
            Some (EvInitial (snapshot_of job)
                    (if String.eqb (status job) "starting"
                     then Some "Starting download..." else None))
        | None => None
        end in
      let '(later, finished) :=
        stream_loop job_id (time_start W) initial (time_first_progress W) (polls W) in
      ((option_list initial ++ later)%list, finished)
  end.

(** ** The reaper *)

(** The test of [cleanup_old_jobs] on one record. *)
Definition expired (current_time : Q) (j : job) : bool :=
  (String.eqb (status j) "done" || String.eqb (status j) "error")
  && Qgtb (current_time - start_time j) 3600.

(** One cycle of [cleanup_old_jobs]: collect the ids, then delete them. *)
Definition cleanup_cycle (current_time : Q) (JOBS : gmap string job) : gmap string job :=
  let to_delete :=
    omap (fun '(job_id, j) => if expired current_time j then Some job_id else None)
         (map_to_list JOBS) in
  foldl (fun m job_id => delete job_id m) JOBS to_delete.

(** * Sample data *)

(** A store with one fresh job, and a [downloading] event for a file of
    1000000 bytes. *)
Definition band_jobs : gmap string job := {[ "job" := new_job "youtube" "Video" 0 ]}.

Definition band_event (downloaded : Z) : hook_event :=
  mk_event (Some "downloading") (Some 1000000) None (Some downloaded) None None.

(** A store for the reaper, read at time 10000: a finished job 3601 seconds
    old, a finished job 3599 seconds old, a failed job two hours old and a
    job that is still downloading after two hours. *)
Definition aged_job (st : string) (age : Q) : job :=
  {| status := st; percent := 50; downloaded_bytes := 0; total_bytes := 0;
     speed := "0 KB/s"; filename := None; error := None;
     platform := "youtube"; media_type := "Video";
     start_time := 10000 - age; last_update := 10000 - age |}.

Definition reaper_jobs : gmap string job :=
  list_to_map [("old-done", aged_job "done" 3601); ("young-done", aged_job "done" 3599);
               ("old-error", aged_job "error" 7200); ("old-running", aged_job "downloading" 7200)].

(** A stream environment in which the job was never created; two polls are
    on offer. *)
Definition empty_poll : poll := mk_poll ∅ 0 0 0 0.

Definition unknown_stream : stream_env :=
  mk_stream_env band_jobs 0 0 band_jobs [empty_poll; empty_poll].


(** A disk on which the predicted file [/dl/clip.webm] is missing while
    [/dl/clip.mp3], [/dl/clip.m4a] and [/dl/clip.aac] exist. *)
Definition audio_disk : fs :=
  {| path_exists := fun p => Text.mem p ["/dl/clip.m4a"; "/dl/clip.aac"; "/dl/clip.mp3"];
     getsize := fun _ => 1;
     getctime := fun _ => 0%Q;
     glob_star := fun _ => ["/dl/clip.m4a"; "/dl/clip.aac"; "/dl/clip.mp3"] |}.


(** The markers [detect_platform] looks for, in its order. *)
Definition platform_markers : list string :=
  ["instagram.com"; "facebook.com"; "fb.watch"; "fb.com"; "youtube.com"; "youtu.be";
   "twitter.com"; "x.com"; "t.co"; "linkedin.com"; "snapchat.com"; "snap.com"].






(** A disk with one finished video, and the info dict of that video. *)
Definition video_disk : fs :=
  {| path_exists := fun p => String.eqb p "/dl/clip.mp4";
     getsize := fun _ => 4096;
     getctime := fun _ => 0%Q;
     glob_star := fun _ => ["/dl/clip.mp4"] |}.

Definition clip_info : info_dict :=
  mk_info (Some "mp4") (Some "avc1") None [] (Some "https://cdn.example/clip") (Some "clip")
    (Some "abc").

(** An engine whose probe answers [probed] and whose download delivers the
    hook events [events] before it returns [clip_info]; the file is then on
    [video_disk] as [/dl/clip.mp4]. *)
Definition sample_engine (probed : exn + option info_dict) (events : list hook_event)
    : engine :=
  {| uuid4 := "job-1";
     uuid_hex8 := "deadbeef";
     probe := fun _ _ => probed;
     fetch := fun _ _ => (events, inr clip_info);
     prepare_filename := fun _ _ => inr "/dl/clip.mp4";
     requests_get := fun _ => inl "connection refused";
     disk := video_disk;
     time_find := 0;
     rename_error := false;
     time_rename := 0;
     quote := fun s => s |}.

(** A probe that fails the way the engine reports a private video. *)
Definition private_engine : engine :=
  sample_engine (inl (DownloadError "ERROR: [youtube] abc: Private video. Sign in to view"))
    [].

Definition youtube_request : request :=
  mk_request (Some "https://www.youtube.com/watch?v=abc") None.



(** * Vocabulary of the properties *)

(** The status and percent of the phase writes of the controller, by call
    site: four in [download], four constants in [download_image_directly],
    one before the artifact search. *)
Definition controller_phases : list (string * Z) :=
  [("starting", 10); ("extracting info", 20); ("extracting info", 35);
   ("preparing", 45); ("finding file", 90);
   ("downloading", 50); ("downloading", 60); ("downloading", 70); ("downloading", 95)].

(** The byte counts that [write_chunks] reports, one per non-empty chunk. *)
Fixpoint chunk_counts (downloaded : Z) (chunks : list Z) : list Z :=
  match chunks with
  | [] => []
  | len :: rest =>
      if len =? 0 then chunk_counts downloaded rest
      else (downloaded + len) :: chunk_counts (downloaded + len) rest
  end.

(** The writes that do not end a job: the phase writes of the controller,
    the two kinds of writes of the image download, and the calls of the hook.
    [H] restricts the hook events and [B] relates the byte count of an image
    chunk write to the declared length. *)
Inductive phase_write (H : hook_event -> Prop) (B : Z -> Z -> Prop) : op -> Prop :=
| pw_phase st p :
    In (st, p) controller_phases -> phase_write H B (OpUpdate (upd st (Some p)))
| pw_image_start total_size :
    phase_write H B
      (OpUpdate (mk_args "downloading" (Some 80) (Some 0) (Some total_size) None None None))
| pw_image_chunk downloaded total_size :
    0 < total_size -> B downloaded total_size ->
    phase_write H B
      (OpUpdate (mk_args "downloading"
                   (Some (80 + Z.quot (raw_pct downloaded total_size * 15) 100))
                   (Some downloaded) (Some total_size) None None None))
| pw_hook d : H d -> phase_write H B (OpHook d).

(** The two writes that end a job. *)
Inductive terminal_write : op -> Prop :=
| tw_done f :
    terminal_write (OpUpdate (mk_args "done" (Some 100) None None None (Some f) None))
| tw_error msg :
    terminal_write (OpUpdate (mk_args "error" None None None None None (Some msg))).

(** Handler code that has not ended the job unless it returned a response. *)
Definition open_run (H : hook_event -> Prop) (B : Z -> Z -> Prop) {A} (m : M A) : Prop :=
  match snd m with
  | Return _ =>
      exists mids t, fst m = (mids ++ [t])%list
                     /\ Forall (phase_write H B) mids /\ terminal_write t
  | _ => Forall (phase_write H B) (fst m)
  end.

(** Handler code that has ended the job unless it raised. *)
Definition closed_run (H : hook_event -> Prop) (B : Z -> Z -> Prop) {A} (m : M A) : Prop :=
  match snd m with
  | Raise _ => Forall (phase_write H B) (fst m)
  | _ =>
      exists mids t, fst m = (mids ++ [t])%list
                     /\ Forall (phase_write H B) mids /\ terminal_write t
  end.







(** The clock of the sample runs: the [k]-th write happens at second [k]. *)
Definition sample_clock (k : nat) : Q := inject_Z (Z.of_nat k).

(** A download during which the engine reports 5% of the bytes. *)
Definition slow_start_engine : engine :=
  sample_engine (inr (Some clip_info))
    [mk_event (Some "downloading") (Some 1000000) None (Some 50000) None None].








(** A photo post: the probe finds a thumbnail, and the image server sends
    100 bytes in two chunks with [sent_length] as declared length. *)
Definition photo_info : info_dict :=
  mk_info (Some "jpg") (Some "none") (Some "https://cdn.example/p.jpg") [] None
    (Some "sunset") (Some "p1").

Definition photo_engine (sent_length : Z) : engine :=
  {| uuid4 := "job-1";
     uuid_hex8 := "deadbeef";
     probe := fun _ _ => inr (Some photo_info);
     fetch := fun _ _ => ([], inr photo_info);
     prepare_filename := fun _ _ => inr "/dl/sunset_p1.jpg";
     requests_get := fun _ => inr (mk_http None sent_length "image/jpeg" [40; 60]);
     disk := video_disk;
     time_find := 0;
     rename_error := false;
     time_rename := 0;
     quote := fun s => s |}.

Definition photo_request : request :=
  mk_request (Some "https://www.instagram.com/p/abc/") (Some "Photo").


(** * Vocabulary of the further properties *)

(** Every character of [s] passes the test [f]. *)
Fixpoint string_all (f : ascii -> bool) (s : string) : bool :=
  match s with
  | EmptyString => true
  | String c r => f c && string_all f r
  end.

(** [c] is a path separator of the flavour [P]. *)
Definition is_separator (P : os_path) (c : ascii) : bool :=
  Ascii.eqb c (sep P)
  || match altsep P with Some a => Ascii.eqb c a | None => false end.


(** A file of the download directory that the last resort of
    [find_downloaded_file] may return: it has one of the extensions of the
    kind and was created less than 120 seconds before [now]. *)
Definition recent_candidate (P : os_path) (disk : fs) (now : Q) (media_type f : string)
    : Prop :=
  Text.mem (Text.lower (snd (splitext P f))) (extensions_for media_type) = true
  /\ (now - getctime disk f < 120)%Q.

(** A download directory with an old video, two fresh ones and a fresh
    text file; nothing exists under the predicted name. *)
Definition recent_disk : fs :=
  {| path_exists := fun _ => false;
     getsize := fun _ => 1;
     getctime := fun p =>
       if String.eqb p "/dl/old.mp4" then 100%Q
       else if String.eqb p "/dl/a.mp4" then 950%Q
       else if String.eqb p "/dl/b.MKV" then 990%Q
       else 995%Q;
     glob_star := fun _ => ["/dl/old.mp4"; "/dl/a.mp4"; "/dl/notes.txt"; "/dl/b.MKV"] |}.


(** The two terminal writes of [download]. *)
Definition done_write (f : string) : op :=
  OpUpdate (mk_args "done" (Some 100) None None None (Some f) None).

Definition error_write (msg : string) : op :=
  OpUpdate (mk_args "error" None None None None None (Some msg)).

(** Handler code that returns from the middle of [download] only with a 400
    error response, right after an error write. *)
Definition early_return_ok {A} (m : M A) : Prop :=
  match snd m with
  | Return r =>
      code r = 400 /\ (exists message, payload r = ErrorBody message)
      /\ exists w msg, fst m = (w ++ [error_write msg])%list
  | _ => True
  end.

(** Handler code that, unless it raises, ends as [download] ends: with the
    success response right after the done write that carries the same file
    name, for a file that is not empty, or with an early return. *)
Definition answer_ok (E : engine) (job_id platform media_type : string)
    (m : M response) : Prop :=
  match snd m with
  | Val r =>
      exists w f size,
        fst m = (w ++ [done_write f])%list
        /\ size <> 0
        /\ r = mk_response 200
                 (SuccessBody job_id f ("http://127.0.0.1:5000/files/" +:+ quote E f)
                    platform media_type size)
  | Return r =>
      code r = 400 /\ (exists message, payload r = ErrorBody message)
      /\ exists w msg, fst m = (w ++ [error_write msg])%list
  | Raise _ => True
  end.

(** The message of a failed download phase. *)
Definition fetch_failure_message (download_error : exn) : string :=
  if Text.contains "format" (Text.lower (str_exn download_error))
  then "No suitable video/audio format found for this content"
  else "Download failed: " +:+ str_exn download_error.

(** An engine whose download raises after one progress event. *)
Definition failing_fetch_engine : engine :=
  {| uuid4 := "job-1";
     uuid_hex8 := "deadbeef";
     probe := fun _ _ => inr (Some clip_info);
     fetch := fun _ _ =>
       ([band_event 500000], inl (DownloadError "Requested format is not available"));
     prepare_filename := fun _ _ => inr "/dl/clip.mp4";
     requests_get := fun _ => inl "connection refused";
     disk := video_disk;
     time_find := 0;
     rename_error := false;
     time_rename := 0;
     quote := fun s => s |}.


(** One observation ends the stream: the job is gone, or it is [done] or
    [error], or more than ten minutes have passed since the stream began. *)
Definition poll_stops (job_id : string) (start_time : Q) (p : poll) : bool :=
  match p_jobs p !! job_id with
  | None => true
  | Some job =>
      String.eqb (status job) "done" || String.eqb (status job) "error"
      || Qgtb (p_time_timeout p - start_time) timeout_seconds
  end.



(** A stream on a job that is seen downloading twice and then done. *)
Definition done_job : job :=
  {| status := "done"; percent := 100; downloaded_bytes := 10; total_bytes := 10;
     speed := "1.0 KB/s"; filename := Some "clip.mp4"; error := None;
     platform := "youtube"; media_type := "Video";
     start_time := 0; last_update := 9 |}.

Definition finishing_stream : stream_env :=
  mk_stream_env band_jobs 1 1 band_jobs
    [mk_poll band_jobs 2 2 2 2; mk_poll band_jobs 3 3 3 3;
     mk_poll {[ "job" := done_job ]} 4 4 4 4; mk_poll ∅ 5 5 5 5].


(** A run of [n] letters [x]. *)
Fixpoint repeat_x (n : nat) : string :=
  match n with O => EmptyString | S k => String "x" (repeat_x k) end.


(** The answer of the photo branch when the URL turns out to hold a video. *)
Definition wrong_kind_response : response :=
  error_response 400
    "This URL contains a video, not a photo. Please select 'Video' or 'Reel' instead.".

(** Where the two rare outcomes of handler code come from: a
    [DownloadError] is one that [prepare_filename] raised, and a response
    returned from the middle is the wrong-kind answer. *)
Definition origin_ok (E : engine) {A} (o : outcome A) : Prop :=
  match o with
  | Raise (DownloadError msg) =>
      exists opts info, prepare_filename E opts info = inl (DownloadError msg)
  | Return r => r = wrong_kind_response
  | _ => True
  end.

(** A photo request for a URL that holds a video: the probe reports a
    video, and the image server cannot be reached. *)
Definition video_as_photo_request : request :=
  mk_request (Some "https://www.youtube.com/watch?v=abc") (Some "photo").


(** The keys of the message table of [get_status_message]. *)
Definition job_statuses : list string :=
  ["queued"; "starting"; "extracting info"; "preparing"; "downloading"; "processing";
   "finding file"; "done"; "error"].

(** The record of [job_id] exists and its status is a key of the table. *)
Definition status_known (job_id : string) (JOBS : gmap string job) : Prop :=
  exists j, JOBS !! job_id = Some j /\ In (status j) job_statuses.

(** * Properties *)

(** ** The store: [update_job_progress] *)

Lemma update_lookup_same now job_id a (JOBS : gmap string job) j :
  JOBS !! job_id = Some j ->
  update_job_progress now job_id a JOBS !! job_id = Some (update_record now a j).
Proof.
  intros H. unfold update_job_progress. rewrite H. apply lookup_insert_eq.
Qed.

Lemma update_lookup_None now job_id a (JOBS : gmap string job) :
  JOBS !! job_id = None -> update_job_progress now job_id a JOBS = JOBS.
Proof. intros H. unfold update_job_progress. now rewrite H. Qed.

(** C7. A call of [update_job_progress] for an id that is not in the store
    leaves the store as it is; for an id that is in the store the record is
    replaced by one in which [percent], [status], the byte counters,
    [filename] and [error] hold the argument when one was given (a non-empty
    one for [status]) and the old value otherwise, the creation fields
    ([platform], [media_type], [start_time]) are the old ones, and no other
    id is touched. Only [last_update] and [speed] may change besides. *)
Theorem update_job_progress_partial now job_id a (JOBS : gmap string job) :
  match JOBS !! job_id with
  | None => update_job_progress now job_id a JOBS = JOBS
  | Some j =>
      exists j',
        update_job_progress now job_id a JOBS = <[job_id := j']> JOBS
        /\ percent j' = default (percent j) (a_percent a)
        /\ status j' = (if Text.nonempty (a_status a) then a_status a else status j)
        /\ downloaded_bytes j' = default (downloaded_bytes j) (a_downloaded_bytes a)
        /\ total_bytes j' = default (total_bytes j) (a_total_bytes a)
        /\ filename j' = (if a_filename a is Some f then Some f else filename j)
        /\ error j' = (if a_error a is Some e then Some e else error j)
        /\ platform j' = platform j
        /\ media_type j' = media_type j
        /\ start_time j' = start_time j
  end.
Proof.
  destruct (JOBS !! job_id) as [j|] eqn:Hj.
  - exists (update_record now a j). unfold update_job_progress. rewrite Hj.
    repeat split.
  - now apply update_lookup_None.
Qed.

(** ** The progress hook *)



(** ** The progress stream *)

(** C8. A stream for a job id that is not in the store when the stream
    starts yields exactly one event, the error event, and is finished,
    whatever the store holds later. *)
Theorem event_stream_unknown_job job_id (W : stream_env) :
  jobs_at_check W !! job_id = None ->
  event_stream job_id W = ([EvError "Job not found"], true).
Proof. intros H. unfold event_stream. now rewrite H. Qed.

Lemma event_stream_unknown_job_witness :
  event_stream "nobody" unknown_stream = ([EvError "Job not found"], true).
Proof. apply (event_stream_unknown_job "nobody" unknown_stream). reflexivity. Defined.

(** ** The reaper *)

Lemma Qgtb_lt x y : Qgtb x y = true <-> (y < x)%Q.
Proof.
  unfold Qgtb. rewrite negb_true_iff, <- not_true_iff_false, Qle_bool_iff.
  split; [apply Qnot_le_lt | apply Qlt_not_le].
Qed.

Lemma expired_spec now j :
  expired now j = true
  <-> (status j = "done" \/ status j = "error") /\ (3600 < now - start_time j)%Q.
Proof.
  unfold expired. rewrite andb_true_iff, orb_true_iff, !String.eqb_eq, Qgtb_lt.
  reflexivity.
Qed.

Lemma lookup_foldl_delete (l : list string) (m : gmap string job) k :
  foldl (fun m job_id => delete job_id m) m l !! k
  = if decide (k ∈ l) then None else m !! k.
Proof.
  revert m. induction l as [|x l IH]; intros m; cbn [foldl].
  - destruct (decide (k ∈ [])) as [H|]; [by apply elem_of_nil in H|done].
  - rewrite IH.
    destruct (decide (k ∈ l)) as [Hin|Hin], (decide (k ∈ x :: l)) as [Hin'|Hin'];
      try done.
    + exfalso. apply Hin'. now right.
    + apply elem_of_cons in Hin' as [->|?]; [apply lookup_delete_eq|contradiction].
    + apply lookup_delete_ne. intros ->. apply Hin'. now left.
Qed.

Lemma cleanup_cycle_lookup now (JOBS : gmap string job) k :
  cleanup_cycle now JOBS !! k
  = match JOBS !! k with
    | Some j => if expired now j then None else Some j
    | None => None
    end.
Proof.
  unfold cleanup_cycle. rewrite lookup_foldl_delete.
  set (f := fun '(job_id, j) => if expired now j then Some job_id else None).
  destruct (decide (k ∈ omap f (map_to_list JOBS))) as [Hin|Hin].
  - apply list_elem_of_omap in Hin as [[k' j] [Hel Hf]].
    apply elem_of_map_to_list in Hel. unfold f in Hf.
    destruct (expired now j) eqn:He; [|discriminate].
    injection Hf as ->. now rewrite Hel, He.
  - destruct (JOBS !! k) as [j|] eqn:Hk; [|done].
    destruct (expired now j) eqn:He; [|done].
    exfalso. apply Hin. apply list_elem_of_omap. exists (k, j). split.
    + now apply elem_of_map_to_list.
    + unfold f. now rewrite He.
Qed.

(** C9. After one reaper cycle the store holds exactly the records that were
    there and are not both terminal ([done] or [error]) and more than 3600
    seconds old. In particular a [done] record 3601 seconds old is gone, a
    [done] record 3599 seconds old is still there, and a record that is not
    terminal is still there whatever its age. *)
Theorem cleanup_cycle_exact now (JOBS : gmap string job) :
  (forall job_id j,
     cleanup_cycle now JOBS !! job_id = Some j
     <-> JOBS !! job_id = Some j
         /\ ~ ((status j = "done" \/ status j = "error")
               /\ (3600 < now - start_time j)%Q))
  /\ (forall job_id j,
        JOBS !! job_id = Some j -> status j = "done" ->
        (now - start_time j == 3601)%Q -> cleanup_cycle now JOBS !! job_id = None)
  /\ (forall job_id j,
        JOBS !! job_id = Some j -> status j = "done" ->
        (now - start_time j == 3599)%Q -> cleanup_cycle now JOBS !! job_id = Some j)
  /\ (forall job_id j,
        JOBS !! job_id = Some j -> status j <> "done" -> status j <> "error" ->
        cleanup_cycle now JOBS !! job_id = Some j).
Proof.
  split; [|split; [|split]].
  - intros job_id j. rewrite cleanup_cycle_lookup. split.
    + intros H. destruct (JOBS !! job_id) as [j0|]; [|done].
      destruct (expired now j0) eqn:He; [done|]. injection H as ->.
      split; [done|]. rewrite <- expired_spec, He. discriminate.
    + intros [Hj Hn]. rewrite Hj.
      destruct (expired now j) eqn:He; [|done].
      exfalso. apply Hn. now apply expired_spec.
  - intros job_id j Hj Hs Hage. rewrite cleanup_cycle_lookup, Hj.
    assert (expired now j = true) as ->; [|done].
    apply expired_spec. split; [now left|]. rewrite Hage. reflexivity.
  - intros job_id j Hj Hs Hage. rewrite cleanup_cycle_lookup, Hj.
    destruct (expired now j) eqn:He; [|done].
    apply expired_spec in He as [_ He]. rewrite Hage in He. discriminate He.
  - intros job_id j Hj Hd He. rewrite cleanup_cycle_lookup, Hj.
    destruct (expired now j) eqn:Hx; [|done].
    apply expired_spec in Hx as [[?|?] _]; contradiction.
Qed.

Lemma cleanup_cycle_exact_witness :
  cleanup_cycle 10000 reaper_jobs !! "old-done" = None
  /\ cleanup_cycle 10000 reaper_jobs !! "young-done" = Some (aged_job "done" 3599)
  /\ cleanup_cycle 10000 reaper_jobs !! "old-error" = None
  /\ cleanup_cycle 10000 reaper_jobs !! "old-running" = Some (aged_job "downloading" 7200).
Proof.
  destruct (cleanup_cycle_exact 10000 reaper_jobs) as (Hiff & Hold & Hyoung & Hopen).
  split; [|split; [|split]].
  - apply (Hold "old-done" (aged_job "done" 3601)); reflexivity.
  - apply (Hyoung "young-done" (aged_job "done" 3599)); reflexivity.
  - destruct (cleanup_cycle 10000 reaper_jobs !! "old-error") as [j|] eqn:E; [|reflexivity].
    apply Hiff in E as [Hj Hn]. exfalso. apply Hn.
    vm_compute in Hj. injection Hj as <-. split; [now right|reflexivity].
  - apply (Hopen "old-running" (aged_job "downloading" 7200)); [reflexivity| |]; discriminate.
Defined.

(** ** Artifact resolution *)

Lemma rfind_from_lower c s i last : -1 <= last -> 0 <= i -> -1 <= rfind_from c s i last.
Proof.
  revert i last. induction s as [|a r IH]; intros i last Hl Hi; simpl; [done|].
  apply IH; [|lia]. destruct (Ascii.eqb a c); lia.
Qed.

Lemma sep_index_lower P p : -1 <= sep_index P p.
Proof.
  unfold sep_index, rfind.
  destruct (altsep P); [apply Z.max_le_iff; left|]; now apply rfind_from_lower.
Qed.

Lemma nonempty_true s : Text.nonempty s = true <-> s <> "".
Proof. destruct s; simpl; split; congruence. Qed.

(** The root that [splitext] returns for a non-empty path is not empty. *)
Lemma splitext_root_nonempty P p : p <> "" -> fst (splitext P p) <> "".
Proof.
  intros Hp. unfold splitext.
  destruct (_ && _) eqn:Hc; simpl; [|done].
  apply andb_true_iff in Hc as [_ Hex].
  apply existsb_exists in Hex as [i [Hin _]].
  apply list_elem_of_In, elem_of_seqZ in Hin.
  pose proof (sep_index_lower P p).
  destruct p as [|c r]; [done|].
  destruct (Z.to_nat (rfind "." (String c r))) eqn:Hn; [lia|]. simpl. discriminate.
Qed.

Lemma first_existing_first disk base before ext after :
  (forall e, e ∈ before -> path_exists disk (base +:+ e) = false) ->
  path_exists disk (base +:+ ext) = true ->
  first_existing disk base (before ++ ext :: after) = Some (base +:+ ext).
Proof.
  induction before as [|e before IH]; intros Hb He; simpl.
  - now rewrite He.
  - rewrite (Hb e) by left. apply IH; [|done]. intros e' ?. apply Hb. now right.
Qed.

Lemma audio_extensions_for media_type :
  Text.mem (Text.lower media_type) audio_kinds = true ->
  extensions_for media_type = [".mp3"; ".m4a"; ".opus"; ".ogg"; ".wav"; ".aac"].
Proof. intros H. unfold extensions_for. now rewrite H. Qed.

(** C6. For a predicted path that is not empty and does not exist, with
    [base] its path without the extension: if [ext] is the first extension of
    the kind's list for which [base + ext] exists, the resolution returns
    [base + ext]. For the audio kinds the list is mp3, m4a, opus, ogg, wav,
    aac, so an existing [base.mp3] is returned whatever else exists. *)
Theorem find_downloaded_file_priority P disk now prepared media_type download_dir :
  prepared <> "" ->
  path_exists disk prepared = false ->
  let base := fst (splitext P prepared) in
  (forall before ext after,
     extensions_for media_type = (before ++ ext :: after)%list ->
     (forall e, e ∈ before -> path_exists disk (base +:+ e) = false) ->
     path_exists disk (base +:+ ext) = true ->
     find_downloaded_file P disk now prepared media_type download_dir
     = Some (base +:+ ext))
  /\ (Text.mem (Text.lower media_type) audio_kinds = true ->
      extensions_for media_type = [".mp3"; ".m4a"; ".opus"; ".ogg"; ".wav"; ".aac"]
      /\ (path_exists disk (base +:+ ".mp3") = true ->
          find_downloaded_file P disk now prepared media_type download_dir
          = Some (base +:+ ".mp3"))).
Proof.
  intros Hne Hmiss base.
  assert (Hgen : forall before ext after,
     extensions_for media_type = (before ++ ext :: after)%list ->
     (forall e, e ∈ before -> path_exists disk (base +:+ e) = false) ->
     path_exists disk (base +:+ ext) = true ->
     find_downloaded_file P disk now prepared media_type download_dir
     = Some (base +:+ ext)).
  { intros before ext after Hexts Hb He. unfold find_downloaded_file.
    rewrite Hmiss, andb_false_r.
    apply nonempty_true in Hne as Hne'. rewrite Hne'.
    fold base.
    assert (Text.nonempty base = true) as ->
      by now apply nonempty_true, splitext_root_nonempty.
    rewrite Hexts. now rewrite (first_existing_first disk base before ext after). }
  split; [exact Hgen|].
  intros Haudio. split; [now apply audio_extensions_for|].
  intros Hmp3. apply (Hgen [] ".mp3" [".m4a"; ".opus"; ".ogg"; ".wav"; ".aac"]).
  - now apply audio_extensions_for.
  - intros e He. now apply elem_of_nil in He.
  - exact Hmp3.
Qed.

Lemma find_downloaded_file_priority_witness :
  find_downloaded_file posixpath audio_disk 0 "/dl/clip.webm" "Audio Only" "/dl"
  = Some "/dl/clip.mp3".
Proof.
  destruct (find_downloaded_file_priority posixpath audio_disk 0 "/dl/clip.webm"
              "Audio Only" "/dl") as [_ Haudio]; [discriminate|reflexivity|].
  destruct (Haudio eq_refl) as [_ Hmp3]. apply Hmp3. reflexivity.
Defined.

(** ** The controller: validation *)

Lemma handle_after_tell o (m : M response) :
  exists rest r, handle (tell o ;;; m) = (o :: rest, r).
Proof.
  destruct m as [w [r|[msg|msg]|r]]; simpl; eauto.
Qed.

Lemma detect_platform_unknown url :
  String.eqb (detect_platform url) "unknown"
  = negb (existsb (fun m => Text.contains m (Text.lower url)) platform_markers).
Proof.
  unfold detect_platform, platform_markers, existsb.
  repeat (match goal with
          | |- context [Text.contains ?m ?u] => destruct (Text.contains m u); simpl; try reflexivity
          end).
Qed.

(** What the three validation tests of [download] amount to. *)
Lemma download_creates_or_refuses P DOWNLOAD_DIR E req :
  let url := sanitize_url (r_url req) in
  if Text.nonempty url
     && (Text.startswith "http://" url || Text.startswith "https://" url)
     && existsb (fun m => Text.contains m (Text.lower url)) platform_markers
  then exists rest r,
         download P DOWNLOAD_DIR E req
         = (OpCreate (detect_platform url) (default "Video" (r_mediaType req)) :: rest, r)
  else fst (download P DOWNLOAD_DIR E req) = []
       /\ code (snd (download P DOWNLOAD_DIR E req)) = 400.
Proof.
  intros url. unfold download. fold url.
  rewrite detect_platform_unknown.
  set (marked := existsb _ platform_markers).
  destruct (Text.nonempty url); cbn [negb andb fst snd]; [|done].
  destruct (_ || _); cbn [negb andb fst snd]; [|done].
  destruct marked; cbn [negb andb fst snd]; [|done].
  apply handle_after_tell.
Qed.



(** ** The controller: a failed metadata probe *)

(** C3, as the code has it. When the request passes validation and the
    metadata probe raises, whatever the class and the message of the
    exception, the response has status 500 and carries the message chosen by
    the classification: the handler that answers 400 is not reached. *)
Theorem probe_failure_answers_500 P DOWNLOAD_DIR E req extract_error :
  let url := sanitize_url (r_url req) in
  let media_type := default "Video" (r_mediaType req) in
  let platform := detect_platform url in
  Text.nonempty url = true ->
  Text.startswith "http://" url || Text.startswith "https://" url = true ->
  String.eqb platform "unknown" = false ->
  probe E (make_ydl_opts P DOWNLOAD_DIR (uuid4 E) media_type platform) url
  = inl extract_error ->
  snd (download P DOWNLOAD_DIR E req)
  = error_response 500 (str_exn (probe_failure platform extract_error)).
Proof.
  intros url media_type platform Hne Hscheme Hplat Hprobe.
  unfold download. fold url media_type platform.
  rewrite Hne, Hscheme, Hplat. simpl.
  unfold run_job. rewrite Hprobe. simpl.
  unfold probe_failure.
  repeat (match goal with
          | |- context [if ?b then _ else _] => destruct b; simpl; try reflexivity
          end).
Qed.

(** A private video: the probe raises [DownloadError] with a message that
    contains "Private", and the answer is 500. *)
Lemma probe_failure_answers_500_witness :
  snd (download posixpath "/dl" private_engine youtube_request)
  = error_response 500 "This content is private and cannot be downloaded".
Proof.
  apply (probe_failure_answers_500 posixpath "/dl" private_engine youtube_request
           (DownloadError "ERROR: [youtube] abc: Private video. Sign in to view"));
    reflexivity.
Defined.

(** ** The controller: the default media type *)

Lemma video_opts_keys platform :
  is_Some (video_opts platform !! "format")
  /\ video_opts platform !! "postprocessors" = None
  /\ video_opts platform !! "skip_download" = None
  /\ video_opts platform !! "writethumbnail" = None.
Proof.
  unfold video_opts.
  repeat (match goal with
          | |- context [String.eqb platform ?s] => destruct (String.eqb platform s)
          end); vm_compute; eauto.
Qed.

Lemma platform_config_keys platform k :
  k <> "cookiefile" -> k <> "extractor_args" ->
  get_cookies_for_platform platform !! k = None.
Proof.
  intros H1 H2. unfold get_cookies_for_platform.
  repeat (match goal with
          | |- context [String.eqb platform ?s] => destruct (String.eqb platform s)
          end); cbn [list_to_map foldr uncurry fst snd];
    rewrite ?lookup_insert_ne by congruence; apply lookup_empty.
Qed.



(** ** The writes of one request *)

Section Shape.

Context (P : os_path) (DOWNLOAD_DIR : string) (E : engine).
Context (H : hook_event -> Prop) (B : Z -> Z -> Prop).
Hypothesis fetch_events : forall opts url, Forall H (fst (fetch E opts url)).
Hypothesis chunk_bound :
  forall url resp, requests_get E url = inr resp ->
    Forall (fun dl => B dl (content_length resp)) (chunk_counts 0 (chunks resp)).

Lemma open_ret {A} (a : A) : open_run H B (ret a).
Proof. constructor. Qed.

Lemma open_raise {A} e : open_run H B (@raise A e).
Proof. constructor. Qed.

Lemma closed_raise {A} e : closed_run H B (@raise A e).
Proof. constructor. Qed.

Lemma open_tell o : phase_write H B o -> open_run H B (tell o).
Proof. intros Ho. unfold open_run; simpl. now constructor. Qed.

Lemma open_bind {A C} (m : M A) (f : A -> M C) :
  open_run H B m -> (forall a, open_run H B (f a)) -> open_run H B (bind m f).
Proof.
  destruct m as [w [a|e|r]]; unfold open_run; simpl; intros Hm Hf; try done.
  specialize (Hf a). destruct (f a) as [w' [c|e|r]]; simpl in *.
  - now apply Forall_app.
  - now apply Forall_app.
  - destruct Hf as (mids & t & -> & Hmids & Ht).
    exists (w ++ mids)%list, t. rewrite app_assoc.
    split; [done|]. split; [now apply Forall_app|done].
Qed.

Lemma closed_bind {A C} (m : M A) (f : A -> M C) :
  open_run H B m -> (forall a, closed_run H B (f a)) -> closed_run H B (bind m f).
Proof.
  destruct m as [w [a|e|r]]; unfold open_run, closed_run; simpl; intros Hm Hf; try done.
  specialize (Hf a). destruct (f a) as [w' [c|e|r]]; simpl in *.
  - destruct Hf as (mids & t & -> & Hmids & Ht).
    exists (w ++ mids)%list, t. rewrite app_assoc.
    split; [done|]. split; [now apply Forall_app|done].
  - now apply Forall_app.
  - destruct Hf as (mids & t & -> & Hmids & Ht).
    exists (w ++ mids)%list, t. rewrite app_assoc.
    split; [done|]. split; [now apply Forall_app|done].
Qed.

Lemma open_try_except {A} (m : M A) (h : exn -> M A) :
  open_run H B m -> (forall e, open_run H B (h e)) -> open_run H B (try_except m h).
Proof.
  destruct m as [w [a|e|r]]; unfold open_run; simpl; intros Hm Hh; try done.
  specialize (Hh e). destruct (h e) as [w' [c|e'|r]]; simpl in *.
  - now apply Forall_app.
  - now apply Forall_app.
  - destruct Hh as (mids & t & -> & Hmids & Ht).
    exists (w ++ mids)%list, t. rewrite app_assoc.
    split; [done|]. split; [now apply Forall_app|done].
Qed.

Lemma open_phase {A} st p (k : M A) :
  In (st, p) controller_phases -> open_run H B k ->
  open_run H B (update (upd st (Some p)) ;;; k).
Proof.
  intros Hin Hk. apply open_bind; [|done]. apply open_tell. now constructor.
Qed.

Lemma open_write_chunks total_size downloaded chunks :
  Forall (fun dl => B dl total_size) (chunk_counts downloaded chunks) ->
  open_run H B (write_chunks total_size downloaded chunks).
Proof.
  revert downloaded. induction chunks as [|len rest IH]; intros downloaded Hc.
  - apply open_ret.
  - cbn [write_chunks chunk_counts] in *. destruct (len =? 0); [now apply IH|].
    apply Forall_cons in Hc as [Hb Hc].
    apply open_bind; [|intros _; now apply IH].
    destruct (Z.ltb_spec 0 total_size); [|apply open_ret].
    apply open_tell. now constructor.
Qed.

Lemma open_download_image_directly info :
  open_run H B (download_image_directly P DOWNLOAD_DIR E info).
Proof.
  unfold download_image_directly.
  apply open_phase; [simpl; tauto|].
  destruct (if str_truthy (i_thumbnail info) then _ else _) as [image_url|];
    [|apply open_raise].
  destruct (negb (Text.nonempty image_url)); [apply open_raise|].
  apply open_phase; [simpl; tauto|].
  apply open_phase; [simpl; tauto|].
  destruct (requests_get E image_url) as [msg|resp] eqn:Hget; [apply open_raise|].
  destruct (status_error resp); [apply open_raise|].
  apply open_bind; [apply open_tell; constructor|intros _].
  apply open_bind; [apply open_write_chunks; eauto|intros downloaded].
  apply open_phase; [simpl; tauto|].
  destruct (_ || _); [apply open_raise|apply open_ret].
Qed.

Lemma open_photo_handling url platform info :
  open_run H B (photo_handling P DOWNLOAD_DIR E url platform info).
Proof.
  unfold photo_handling. apply open_try_except; [apply open_download_image_directly|].
  intros e. destruct (negb _); [|apply open_raise].
  unfold open_run; simpl.
  eexists [], _. split; [reflexivity|]. split; constructor.
Qed.

Lemma open_engine_handling ydl_opts url media_type :
  open_run H B (engine_handling P DOWNLOAD_DIR E ydl_opts url media_type).
Proof.
  unfold engine_handling. apply open_phase; [simpl; tauto|].
  pose proof (fetch_events ydl_opts url) as Hev.
  destruct (fetch E ydl_opts url) as [events result]; simpl in Hev.
  apply open_bind.
  { unfold open_run; simpl. induction Hev; constructor; [now constructor|done]. }
  intros _. destruct result as [e|info].
  { destruct (Text.contains _ _); apply open_raise. }
  destruct (prepare_filename E ydl_opts info); [apply open_raise|].
  apply open_phase; [simpl; tauto|].
  destruct (str_truthy _); [apply open_ret|].
  destruct (_ || _); [apply open_raise|apply open_ret].
Qed.

Lemma closed_finalize job_id platform media_type final_path disk :
  closed_run H B (finalize P DOWNLOAD_DIR E job_id platform media_type final_path disk).
Proof.
  unfold finalize. destruct (negb _); [apply closed_raise|].
  destruct (_ =? 0); [apply closed_raise|].
  unfold closed_run; simpl.
  eexists [], _. split; [reflexivity|]. split; constructor.
Qed.

(** Every request that creates a job writes the creation, then phase
    writes and hook calls, then exactly one terminal write. *)
Lemma download_writes req :
  fst (download P DOWNLOAD_DIR E req) = []
  \/ exists platform media_type mids t,
       fst (download P DOWNLOAD_DIR E req)
       = (OpCreate platform media_type :: mids ++ [t])%list
       /\ Forall (phase_write H B) mids /\ terminal_write t.
Proof.
  unfold download.
  destruct (negb _); [now left|].
  destruct (negb _); [now left|].
  destruct (String.eqb _ "unknown"); [now left|].
  right. unfold run_job.
  set (url := sanitize_url (r_url req)).
  set (media_type := default "Video" (r_mediaType req)).
  set (platform := detect_platform url).
  set (ydl_opts := make_ydl_opts _ _ _ _ _).
  match goal with
  | |- context [handle (tell ?o ;;; ?k)] =>
      assert (Hk : closed_run H B k); [|set (body := k) in *]
  end.
  { apply closed_bind; [apply open_tell; constructor; simpl; tauto|intros _].
    apply closed_bind; [apply open_tell; constructor; simpl; tauto|intros _].
    apply closed_bind.
    { destruct (probe E ydl_opts url); [apply open_raise|apply open_ret]. }
    intros [info|]; [|apply closed_raise].
    apply closed_bind; [apply open_tell; constructor; simpl; tauto|intros _].
    apply closed_bind; [|intros found; apply closed_finalize].
    unfold media_handling.
    destruct (String.eqb _ "photo");
      [apply open_photo_handling|apply open_engine_handling]. }
  exists platform, media_type.
  destruct body as [w [r|[msg|msg]|r]]; unfold closed_run in Hk; simpl in *.
  - destruct Hk as (mids & t & -> & ? & ?). eauto.
  - exists w, (OpUpdate (mk_args "error" None None None None None (Some msg))).
    split; [done|]. split; [done|constructor].
  - exists w, (OpUpdate (mk_args "error" None None None None None (Some msg))).
    split; [done|]. split; [done|constructor].
  - destruct Hk as (mids & t & -> & ? & ?). eauto.
Qed.

End Shape.

(** ** Histories *)


Lemma history_invariant (I : gmap string job -> Prop) (Q : op -> Prop) clock job_id :
  (forall now o JOBS, Q o -> I JOBS -> I (apply_op now job_id o JOBS)) ->
  forall ops k JOBS,
    Forall Q ops -> I JOBS ->
    Forall I (history clock k job_id ops JOBS) /\ I (run_ops clock k job_id ops JOBS).
Proof.
  intros Hstep. induction ops as [|o ops IH]; intros k JOBS Hops HI; simpl.
  - split; [constructor|done].
  - apply Forall_cons in Hops as [Ho Hops].
    destruct (IH (S k) (apply_op (clock k) job_id o JOBS)) as [Hh Hr];
      [done|now apply Hstep|].
    split; [constructor; [now apply Hstep|done]|done].
Qed.

(** ** The range of [percent] *)









(** Without the bound on the image chunks the range is lost: under a
    declared length of 30 the same 100 bytes give 129. *)
Example image_chunks_beyond_declared_length :
  percents "job-1"
    (history sample_clock 0 "job-1"
       (fst (download posixpath "/dl" (photo_engine 30) photo_request)) ∅)
  = [0; 10; 20; 35; 50; 60; 70; 80; 99; 129; 95; 100].
Proof. vm_compute. reflexivity. Qed.

(** The store writes the percent it is given: no clamping in
    [update_job_progress]. *)
Example update_job_progress_stores_unclamped :
  percent <$> (update_job_progress 3 "job" (upd "downloading" (Some 250)) band_jobs !! "job")
  = Some 250.
Proof. reflexivity. Qed.

(** ** Terminal records *)










(** The other direction fails as well: after an error event the hook may be
    called again, and the record is [downloading] with the error text still
    there. *)
Example error_text_survives_progress :
  (fun j => (status j, filename j, error j))
  <$> (run_ops sample_clock 0 "job"
         [OpHook (mk_event (Some "error") None None None None None);
          OpHook (band_event 500000)] band_jobs !! "job")
  = Some ("downloading", None, Some "Unknown error").
Proof. vm_compute. reflexivity. Qed.

(** * Further properties of the code *)

(** ** Characters of a string *)

Lemma string_all_app f a b :
  string_all f (a +:+ b) = string_all f a && string_all f b.
Proof.
  induction a as [|c a IH]; simpl; [reflexivity|]. now rewrite IH, andb_assoc.
Qed.

Lemma string_all_rev_app f a b :
  string_all f (String.rev_app a b) = string_all f a && string_all f b.
Proof.
  revert b. induction a as [|c a IH]; intros b; simpl; [reflexivity|].
  rewrite IH. simpl. destruct (f c), (string_all f a), (string_all f b); reflexivity.
Qed.

Lemma string_all_rev f s : string_all f (String.rev s) = string_all f s.
Proof. unfold String.rev. rewrite string_all_rev_app. simpl. apply andb_true_r. Qed.

Lemma string_all_lstrip f s :
  string_all f s = true -> string_all f (Text.lstrip s) = true.
Proof.
  induction s as [|c s IH]; simpl; [done|]. intros [Hc Hs]%andb_true_iff.
  destruct (Text.is_space c); [now apply IH|]. simpl. now rewrite Hc, Hs.
Qed.

Lemma string_all_strip f s :
  string_all f s = true -> string_all f (Text.strip s) = true.
Proof.
  intros Hs. unfold Text.strip. rewrite string_all_rev.
  apply string_all_lstrip. rewrite string_all_rev. now apply string_all_lstrip.
Qed.

Lemma string_all_take f n s :
  string_all f s = true -> string_all f (Text.take n s) = true.
Proof.
  revert s. induction n as [|n IH]; intros [|c s]; simpl; try done.
  intros [Hc Hs]%andb_true_iff. rewrite Hc. now apply IH.
Qed.

Lemma length_take n s : (String.length (Text.take n s) <= n)%nat.
Proof.
  revert s. induction n as [|n IH]; intros [|c s]; simpl; try lia.
  specialize (IH s). lia.
Qed.

Lemma string_all_collapse_ws f b s :
  f " "%char = true -> string_all f s = true -> string_all f (collapse_ws b s) = true.
Proof.
  intros Hsp. revert b. induction s as [|c s IH]; intros b; simpl; [done|].
  intros [Hc Hs]%andb_true_iff.
  destruct (Text.is_space c), b; simpl; rewrite ?Hsp, ?Hc; simpl; now apply IH.
Qed.

Lemma replace_invalid_valid s :
  string_all (fun c => negb (is_invalid_char c)) (replace_invalid s) = true.
Proof.
  induction s as [|c s IH]; simpl; [done|]. rewrite IH, andb_true_r.
  destruct (is_invalid_char c) eqn:Hc; [reflexivity|now rewrite Hc].
Qed.

(** ** [safe_filename] *)

Lemma safe_filename_clean_aux name :
  (String.length (safe_filename name) <= 180)%nat
  /\ string_all (fun c => negb (is_invalid_char c)) (safe_filename name) = true.
Proof.
  unfold safe_filename. split; [apply length_take|].
  apply string_all_take, string_all_strip, string_all_collapse_ws; [reflexivity|].
  apply replace_invalid_valid.
Qed.

(** X1. Whatever the name, [safe_filename] returns at most 180 characters,
    none of which is a control character or one of the nine characters the
    function replaces (less-than, greater-than, colon, double quote, slash,
    backslash, bar, question mark, star). *)
Theorem safe_filename_clean name :
  (String.length (safe_filename name) <= 180)%nat
  /\ string_all (fun c => negb (is_invalid_char c)) (safe_filename name) = true.
Proof. exact (safe_filename_clean_aux name). Qed.

(** ** Paths *)

Lemma append_cons c a b : String c a +:+ b = String c (a +:+ b).
Proof. reflexivity. Qed.

Lemma take_drop n s : Text.take n s +:+ Text.drop n s = s.
Proof.
  revert s. induction n as [|n IH]; intros [|c s]; simpl; try reflexivity.
  rewrite append_cons. f_equal. apply IH.
Qed.

Lemma get_drop n k s : String.get k (Text.drop n s) = String.get (n + k) s.
Proof.
  revert s. induction n as [|n IH]; intros [|c s]; simpl; try reflexivity.
  apply IH.
Qed.

Lemma string_all_get f s :
  (forall k a, String.get k s = Some a -> f a = true) -> string_all f s = true.
Proof.
  induction s as [|c s IH]; intros Hget; simpl; [done|].
  rewrite (Hget 0%nat c) by reflexivity. apply IH.
  intros k a Hk. now apply (Hget (S k) a).
Qed.


(** What [rfind_from] returns: [last] when the character does not occur,
    else the position of its last occurrence, counted from [i]. *)
Lemma rfind_from_spec c s i last :
  (rfind_from c s i last = last /\ forall k, String.get k s <> Some c)
  \/ exists k, rfind_from c s i last = i + Z.of_nat k
               /\ String.get k s = Some c
               /\ forall k', (k < k')%nat -> String.get k' s <> Some c.
Proof.
  revert i last. induction s as [|a s IH]; intros i last; simpl.
  - left. split; [done|]. now intros [|k].
  - destruct (IH (i + 1) (if Ascii.eqb a c then i else last))
      as [[Hr Hno]|(k & Hr & Hk & Hmax)].
    + destruct (Ascii.eqb_spec a c) as [->|Hne].
      * right. exists 0%nat. rewrite Hr. split; [lia|]. split; [done|].
        intros [|k'] Hk'; [lia|]. apply Hno.
      * left. split; [done|]. intros [|k]; [congruence|apply Hno].
    + right. exists (S k). rewrite Hr. split; [lia|]. split; [done|].
      intros [|k'] Hk'; [lia|]. apply Hmax. lia.
Qed.

Lemma rfind_spec c s :
  (rfind c s = -1 /\ forall k, String.get k s <> Some c)
  \/ exists k, rfind c s = Z.of_nat k
               /\ String.get k s = Some c
               /\ forall k', (k < k')%nat -> String.get k' s <> Some c.
Proof.
  destruct (rfind_from_spec c s 0 (-1)) as [?|(k & ? & ?)]; [now left|].
  right. exists k. unfold rfind. split; [lia|done].
Qed.

(** No occurrence of [c] at or after a position beyond [rfind c s]. *)
Lemma rfind_after c s k : rfind c s < Z.of_nat k -> String.get k s <> Some c.
Proof.
  intros Hlt. destruct (rfind_spec c s) as [[_ Hno]|(k0 & Hr & _ & Hmax)];
    [apply Hno|apply Hmax; lia].
Qed.

Lemma sep_index_after P p k a :
  sep_index P p < Z.of_nat k -> String.get k p = Some a -> is_separator P a = false.
Proof.
  unfold sep_index, is_separator. intros Hlt Hget.
  apply orb_false_iff. split.
  - apply Ascii.eqb_neq. intros ->. apply (rfind_after (sep P) p k); [|done].
    destruct (altsep P); lia.
  - destruct (altsep P) as [b|]; [|done].
    apply Ascii.eqb_neq. intros ->. apply (rfind_after b p k); [lia|done].
Qed.

(** [splitext] cuts the path in two: root and extension put together
    give the path back; the extension is empty or starts with its only dot
    and holds no path separator; the root of a non-empty path is not
    empty. *)
Theorem splitext_round_trip P p :
  fst (splitext P p) +:+ snd (splitext P p) = p
  /\ (snd (splitext P p) = ""
      \/ (Text.startswith "." (snd (splitext P p)) = true
          /\ string_all (fun c => negb (Ascii.eqb c ".")) (Text.drop 1 (snd (splitext P p)))
             = true
          /\ string_all (fun c => negb (is_separator P c)) (snd (splitext P p)) = true))
  /\ (p <> "" -> fst (splitext P p) <> "").
Proof.
  split; [|split; [|apply splitext_root_nonempty]].
  - unfold splitext. destruct (_ && _); simpl; [apply take_drop|].
    clear. induction p as [|c p IH]; [done|]. now rewrite append_cons, IH.
  - unfold splitext. destruct (_ && _) eqn:Hc; cbn [fst snd]; [right|now left].
    apply andb_true_iff in Hc as [Hlt _]. apply Z.ltb_lt in Hlt.
    pose proof (sep_index_lower P p) as Hlow.
    destruct (rfind_spec "." p) as [[Hr _]|(k & Hr & Hk & Hmax)]; [lia|].
    rewrite Hr, Nat2Z.id in *. split; [|split].
    + pose proof (get_drop k 0 p) as Hg. rewrite Nat.add_0_r, Hk in Hg.
      destruct (Text.drop k p) as [|a r]; [discriminate|].
      injection Hg as ->. reflexivity.
    + apply string_all_get. intros j a Hj. rewrite !get_drop in Hj.
      apply negb_true_iff, Ascii.eqb_neq. intros ->.
      apply (Hmax (k + (1 + j))%nat); [lia|done].
    + apply string_all_get. intros j a Hj. rewrite get_drop in Hj.
      apply negb_true_iff. apply (sep_index_after P p (k + j)); [lia|done].
Qed.




Lemma drop_app_length a b : Text.drop (String.length a) (a +:+ b) = b.
Proof. induction a as [|c a IH]; simpl; [now destruct b|done]. Qed.






(** ** Artifact resolution: what is returned *)

Lemma Qgtb_false x y : Qgtb x y = false <-> (x <= y)%Q.
Proof.
  unfold Qgtb. rewrite negb_false_iff. apply Qle_bool_iff.
Qed.

Lemma first_existing_sound disk base exts p :
  first_existing disk base exts = Some p ->
  exists ext, In ext exts /\ p = base +:+ ext /\ path_exists disk p = true.
Proof.
  induction exts as [|e exts IH]; simpl; [discriminate|].
  destruct (path_exists disk (base +:+ e)) eqn:He.
  - intros [= <-]. exists e. auto.
  - intros Hp. destruct (IH Hp) as (ext & ? & ? & ?). exists ext. auto.
Qed.


(** [max_by] returns an element of its arguments with the greatest key. *)
Lemma max_by_spec {A} (key : A -> Q) best l :
  In (max_by key best l) (best :: l)
  /\ forall x, In x (best :: l) -> (key x <= key (max_by key best l))%Q.
Proof.
  revert best. induction l as [|y l IH]; intros best; simpl.
  - split; [now left|]. intros x [<-|[]]. apply Qle_refl.
  - destruct (Qgtb (key y) (key best)) eqn:Hc.
    + destruct (IH y) as [Hin Hmax]. split.
      * right. exact Hin.
      * intros x [<-|Hx]; [|now apply Hmax].
        apply Qgtb_lt in Hc. apply Qle_trans with (key y); [now apply Qlt_le_weak|].
        apply Hmax. now left.
    + destruct (IH best) as [Hin Hmax]. split.
      * destruct Hin as [Hin|Hin]; [now left|right; now right].
      * intros x [<-|[<-|Hx]].
        -- apply Hmax. now left.
        -- apply Qgtb_false in Hc. apply Qle_trans with (key best); [done|].
           apply Hmax. now left.
        -- apply Hmax. now right.
Qed.

Lemma find_recent_spec P disk now dir media_type :
  match find_recent P disk now dir (extensions_for media_type) with
  | Some p =>
      In p (glob_star disk dir) /\ recent_candidate P disk now media_type p
      /\ forall f, In f (glob_star disk dir) -> recent_candidate P disk now media_type f ->
           (getctime disk f <= getctime disk p)%Q
  | None =>
      forall f, In f (glob_star disk dir) -> ~ recent_candidate P disk now media_type f
  end.
Proof.
  unfold find_recent, recent_candidate.
  set (is_kind := fun f => Text.mem (Text.lower (snd (splitext P f)))
                             (extensions_for media_type)).
  set (is_recent := fun f => Qgtb 120 (now - getctime disk f)).
  assert (Hmem : forall f,
            In f (List.filter is_recent (List.filter is_kind (glob_star disk dir)))
            <-> In f (glob_star disk dir)
                /\ is_kind f = true /\ (now - getctime disk f < 120)%Q).
  { intros f. rewrite !filter_In. unfold is_recent. rewrite Qgtb_lt. tauto. }
  destruct (List.filter is_recent _) as [|f0 rest] eqn:Hl.
  - intros f Hin [Hk Hr]. apply (proj2 (Hmem f)); auto.
  - destruct (max_by_spec (getctime disk) f0 rest) as [Hin Hmax].
    apply Hmem in Hin as (? & ? & ?). repeat split; try done.
    intros f Hf [Hk Hr]. apply Hmax. apply Hmem. auto.
Qed.

(** X3. What [find_downloaded_file] returns is a real file: an existing
    predicted path is returned as it is; otherwise the result is an existing
    sibling of the predicted path with one of the extensions of the kind, or
    a file of the download directory with such an extension that is less
    than 120 seconds old and at least as recent as every other such file. *)
Theorem find_downloaded_file_sound P disk now prepared media_type download_dir :
  (prepared <> "" -> path_exists disk prepared = true ->
   find_downloaded_file P disk now prepared media_type download_dir = Some prepared)
  /\ forall p,
       find_downloaded_file P disk now prepared media_type download_dir = Some p ->
       (p = prepared /\ path_exists disk p = true)
       \/ (exists ext, In ext (extensions_for media_type)
                       /\ p = fst (splitext P prepared) +:+ ext
                       /\ path_exists disk p = true)
       \/ (In p (glob_star disk download_dir)
           /\ recent_candidate P disk now media_type p
           /\ forall f, In f (glob_star disk download_dir) ->
                recent_candidate P disk now media_type f ->
                (getctime disk f <= getctime disk p)%Q).
Proof.
  unfold find_downloaded_file. split.
  - intros Hne%nonempty_true Hex. now rewrite Hne, Hex.
  - intros p. destruct (Text.nonempty prepared && path_exists disk prepared) eqn:Hc.
    { intros [= <-]. left. now apply andb_true_iff in Hc as [_ ?]. }
    match goal with
    | |- match ?x with _ => _ end = _ -> _ => destruct x as [candidate|] eqn:Hfirst
    end.
    + intros [= <-]. right. left.
      destruct (Text.nonempty prepared); [|discriminate].
      destruct (Text.nonempty (fst (splitext P prepared))); [|discriminate].
      now apply first_existing_sound.
    + intros Hrecent. right. right.
      pose proof (find_recent_spec P disk now download_dir media_type) as Hspec.
      now rewrite Hrecent in Hspec.
Qed.

Lemma find_downloaded_file_sound_witness :
  find_downloaded_file posixpath audio_disk 0 "/dl/clip.mp3" "audio" "/dl"
  = Some "/dl/clip.mp3".
Proof.
  apply (find_downloaded_file_sound posixpath audio_disk 0 "/dl/clip.mp3" "audio" "/dl");
    [discriminate|reflexivity].
Defined.



(** The fallback on [recent_disk]: the newest fresh video wins, whatever
    the case of its extension. *)
Example find_downloaded_file_recent :
  find_downloaded_file posixpath recent_disk 1000 "/dl/clip.webm" "Video" "/dl"
  = Some "/dl/b.MKV".
Proof. vm_compute. reflexivity. Qed.

(** ** Media types and engine options *)

Lemma lower_char_idempotent c : Text.lower_char (Text.lower_char c) = Text.lower_char c.
Proof.
  destruct c as [[] [] [] [] [] [] [] []]; reflexivity.
Qed.

Lemma lower_idempotent s : Text.lower (Text.lower s) = Text.lower s.
Proof.
  induction s as [|c s IH]; simpl; [done|]. now rewrite lower_char_idempotent, IH.
Qed.

(** X5. The media type is matched without regard to case, and only through
    its lower-case form: two media types that agree up to case get the same
    extension list, the same engine options and the same resolved file. In
    particular a media type and its lower-case form are interchangeable. *)
Theorem media_type_case_insensitive P DOWNLOAD_DIR disk now prepared job_id platform
    media_type media_type' :
  Text.lower media_type = Text.lower media_type' ->
  extensions_for media_type = extensions_for media_type'
  /\ make_ydl_opts P DOWNLOAD_DIR job_id media_type platform
     = make_ydl_opts P DOWNLOAD_DIR job_id media_type' platform
  /\ find_downloaded_file P disk now prepared media_type DOWNLOAD_DIR
     = find_downloaded_file P disk now prepared media_type' DOWNLOAD_DIR
  /\ extensions_for (Text.lower media_type) = extensions_for media_type.
Proof.
  intros Heq.
  assert (Hext : extensions_for media_type = extensions_for media_type')
    by (unfold extensions_for; now rewrite Heq).
  split; [exact Hext|]. split; [|split].
  - unfold make_ydl_opts. now rewrite Heq.
  - unfold find_downloaded_file. now rewrite Hext.
  - unfold extensions_for. now rewrite lower_idempotent.
Qed.

Lemma media_type_case_insensitive_witness :
  make_ydl_opts posixpath "/dl" "job-1" "AUDIO Only" "youtube"
  = make_ydl_opts posixpath "/dl" "job-1" "audio only" "youtube".
Proof.
  apply (media_type_case_insensitive posixpath "/dl" audio_disk 0 "" "job-1" "youtube"
           "AUDIO Only" "audio only").
  reflexivity.
Defined.

Lemma dict_update_lookup_old (d opts : gmap string pyval) k :
  d !! k = None -> dict_update d opts !! k = opts !! k.
Proof. intros Hk. unfold dict_update. now apply lookup_union_r. Qed.

Lemma kind_opts_keys k :
  k <> "format" -> k <> "postprocessors" -> k <> "writethumbnail" ->
  k <> "skip_download" -> k <> "merge_output_format" ->
  audio_opts !! k = None /\ photo_opts !! k = None
  /\ forall platform, video_opts platform !! k = None.
Proof.
  intros. unfold audio_opts, photo_opts. split; [|split].
  - cbn [list_to_map foldr uncurry fst snd].
    rewrite !lookup_insert_ne by congruence. apply lookup_empty.
  - cbn [list_to_map foldr uncurry fst snd].
    rewrite !lookup_insert_ne by congruence. apply lookup_empty.
  - intros platform. unfold video_opts.
    repeat (match goal with
            | |- context [String.eqb platform ?s] => destruct (String.eqb platform s)
            end); cbn [list_to_map foldr uncurry fst snd];
      rewrite !lookup_insert_ne by congruence; apply lookup_empty.
Qed.

Lemma kind_opts_format :
  is_Some (audio_opts !! "format") /\ is_Some (photo_opts !! "format").
Proof. split; vm_compute; eauto. Qed.

(** X6. Whatever the media type and the platform, the options handed to the
    engine keep the base settings: the progress hook of this job and no
    other, the output template under the download directory, a single video
    per request, the configured transcoder location; and a format selection
    is always present. *)
Theorem make_ydl_opts_base_settings P DOWNLOAD_DIR job_id media_type platform :
  let opts := make_ydl_opts P DOWNLOAD_DIR job_id media_type platform in
  opts !! "progress_hooks" = Some (PProgressHooks [job_id])
  /\ opts !! "outtmpl"
     = Some (PStr (path_join P DOWNLOAD_DIR "%(title).150s_%(id)s.%(ext)s"))
  /\ opts !! "noplaylist" = Some (PBool true)
  /\ opts !! "ffmpeg_location" = Some (PStr FFMPEG_LOCATION)
  /\ is_Some (opts !! "format").
Proof.
  intros opts.
  assert (Hold : forall k, k <> "format" -> k <> "postprocessors" ->
            k <> "writethumbnail" -> k <> "skip_download" ->
            k <> "merge_output_format" -> k <> "cookiefile" -> k <> "extractor_args" ->
            opts !! k = base_opts P DOWNLOAD_DIR job_id !! k).
  { intros k ? ? ? ? ? ? ?. unfold opts, make_ydl_opts.
    destruct (kind_opts_keys k) as (Ha & Hp & Hv); try done.
    destruct (Text.mem _ audio_kinds); [|destruct (String.eqb _ "photo")];
      rewrite dict_update_lookup_old by auto;
      rewrite dict_update_lookup_old by (now apply platform_config_keys); reflexivity. }
  repeat (split; [rewrite Hold by discriminate; reflexivity|]).
  unfold opts, make_ydl_opts, dict_update.
  destruct kind_opts_format as [[a Ha] [p Hp]].
  destruct (video_opts_keys platform) as ([v Hv] & _).
  destruct (Text.mem _ audio_kinds); [|destruct (String.eqb _ "photo")];
    eexists; apply lookup_union_Some_l; eassumption.
Qed.

(** ** The store and the hook: what a write leaves alone *)

(** The hook either does nothing or makes one call of
    [update_job_progress] that carries no file name, a status among
    [downloading], [processing] and [error], and a percent of at most 95. *)
Lemma hook_cases now job_id d (JOBS : gmap string job) j :
  JOBS !! job_id = Some j ->
  hook now job_id d JOBS = JOBS
  \/ exists a,
       hook now job_id d JOBS = update_job_progress now job_id a JOBS
       /\ a_filename a = None
       /\ (a_status a = "downloading" \/ a_status a = "processing" \/ a_status a = "error")
       /\ (forall p, a_percent a = Some p -> p <= 95).
Proof.
  intros Hj. unfold hook. rewrite Hj.
  repeat (match goal with
          | |- context [if ?b then _ else _] => destruct b
          end);
    try (now left); right; eexists; (split; [reflexivity|]); simpl;
    (split; [reflexivity|]); (split; [tauto|]); intros p [= <-]; lia.
Qed.

(** X7. A call of [update_job_progress] or of the hook never creates or
    deletes a job and never touches the record of another job. *)
Theorem store_writes_are_local now job_id a d (JOBS : gmap string job) :
  dom (update_job_progress now job_id a JOBS) = dom JOBS
  /\ dom (hook now job_id d JOBS) = dom JOBS
  /\ forall other,
       other <> job_id ->
       update_job_progress now job_id a JOBS !! other = JOBS !! other
       /\ hook now job_id d JOBS !! other = JOBS !! other.
Proof.
  assert (Hdom : forall a', dom (update_job_progress now job_id a' JOBS) = dom JOBS).
  { intros a'. unfold update_job_progress.
    destruct (JOBS !! job_id) as [j|] eqn:Hj; [|done].
    apply dom_insert_lookup_L. eauto. }
  assert (Hother : forall a' other, other <> job_id ->
            update_job_progress now job_id a' JOBS !! other = JOBS !! other).
  { intros a' other Hne. unfold update_job_progress.
    destruct (JOBS !! job_id); [|done]. apply lookup_insert_ne. congruence. }
  destruct (JOBS !! job_id) as [j|] eqn:Hj.
  - destruct (hook_cases now job_id d JOBS j Hj) as [->|(a' & -> & _)]; auto.
  - assert (hook now job_id d JOBS = JOBS) as -> by (unfold hook; now rewrite Hj). auto.
Qed.

Lemma store_writes_are_local_witness :
  update_job_progress 5 "job" (upd "downloading" (Some 50)) reaper_jobs !! "old-done"
  = reaper_jobs !! "old-done"
  /\ hook 5 "old-running" (band_event 500000) reaper_jobs !! "old-done"
     = reaper_jobs !! "old-done".
Proof.
  destruct (store_writes_are_local 5 "job" (upd "downloading" (Some 50))
              (band_event 500000) reaper_jobs) as (_ & _ & Hjob).
  destruct (store_writes_are_local 5 "old-running" (upd "downloading" (Some 50))
              (band_event 500000) reaper_jobs) as (_ & _ & Hrun).
  split.
  - apply (Hjob "old-done"). discriminate.
  - apply (Hrun "old-done"). discriminate.
Defined.

(** X8. The hook never finishes a job: whatever the event, the record keeps
    its file name and its creation fields, its percent does not go above 95
    unless it was already there, and its status is [done] afterwards only if
    it was [done] before. *)
Theorem hook_never_completes now job_id d (JOBS : gmap string job) j :
  JOBS !! job_id = Some j ->
  exists j',
    hook now job_id d JOBS !! job_id = Some j'
    /\ filename j' = filename j
    /\ platform j' = platform j
    /\ media_type j' = media_type j
    /\ start_time j' = start_time j
    /\ percent j' <= Z.max 95 (percent j)
    /\ (status j' = "done" -> status j = "done").
Proof.
  intros Hj.
  destruct (hook_cases now job_id d JOBS j Hj) as [->|(a & -> & Hf & Hs & Hp)].
  - exists j. repeat split; try done. lia.
  - exists (update_record now a j). split; [now apply update_lookup_same|].
    simpl. rewrite Hf. repeat split.
    + destruct (a_percent a) as [p|]; simpl; [specialize (Hp p eq_refl)|]; lia.
    + destruct (Text.nonempty (a_status a)); [|done].
      intros Hdone. rewrite Hdone in Hs. destruct Hs as [?|[?|?]]; discriminate.
Qed.

Lemma hook_never_completes_witness :
  exists j',
    hook 5 "job" (mk_event (Some "finished") None None None None None) band_jobs !! "job"
    = Some j'
    /\ percent j' <= 95 /\ filename j' = None.
Proof.
  destruct (hook_never_completes 5 "job" (mk_event (Some "finished") None None None None None)
              band_jobs (new_job "youtube" "Video" 0) eq_refl)
    as (j' & Hj' & Hf & _ & _ & _ & Hp & _).
  exists j'. split; [exact Hj'|]. split; [exact Hp|exact Hf].
Defined.

(** X9. A [downloading] event without usable totals. If the downloaded
    count is known (not zero) and the total is not, the byte count is stored
    and percent stays where it was. If the downloaded count is missing or
    zero, percent moves to [min 85 (percent + 1)]: one step up below 85,
    and down to 85 from above; the byte counters stay. *)
Theorem hook_downloading_without_band now job_id d (JOBS : gmap string job) j :
  JOBS !! job_id = Some j ->
  d_status d = Some "downloading" ->
  truthy (py_or (d_total_bytes d) (d_total_bytes_estimate d))
  && truthy (d_downloaded_bytes d) = false ->
  exists j',
    hook now job_id d JOBS !! job_id = Some j'
    /\ status j' = "downloading"
    /\ total_bytes j' = total_bytes j
    /\ (truthy (d_downloaded_bytes d) = true ->
        percent j' = percent j /\ Some (downloaded_bytes j') = d_downloaded_bytes d)
    /\ (truthy (d_downloaded_bytes d) = false ->
        percent j' = Z.min 85 (percent j + 1)
        /\ downloaded_bytes j' = downloaded_bytes j
        /\ (percent j < 85 -> percent j' = percent j + 1)
        /\ (85 <= percent j -> percent j' = 85)).
Proof.
  intros Hj Hs Hband. unfold hook. rewrite Hj, Hs. simpl.
  rewrite Hband. destruct (truthy (d_downloaded_bytes d)) eqn:Hd.
  - eexists. split; [apply update_lookup_same; exact Hj|]. simpl.
    repeat split; try done.
    destruct (d_downloaded_bytes d); [reflexivity|discriminate].
  - eexists. split; [apply update_lookup_same; exact Hj|]. simpl.
    repeat split; try done; lia.
Qed.

Lemma hook_downloading_without_band_witness :
  exists j',
    hook 5 "job" (mk_event (Some "downloading") None None (Some 4096) None None) band_jobs
    !! "job" = Some j'
    /\ percent j' = 0 /\ downloaded_bytes j' = 4096.
Proof.
  destruct (hook_downloading_without_band 5 "job"
              (mk_event (Some "downloading") None None (Some 4096) None None)
              band_jobs (new_job "youtube" "Video" 0) eq_refl eq_refl eq_refl)
    as (j' & Hj' & _ & _ & Hbytes & _).
  destruct (Hbytes eq_refl) as [Hp Hd]. exists j'. split; [exact Hj'|].
  split; [exact Hp|]. now injection Hd.
Defined.

(** ** The reaper: composition *)

Lemma expired_later now now' j :
  (now <= now')%Q -> expired now j = true -> expired now' j = true.
Proof.
  intros Hle [Hs Hage]%expired_spec. apply expired_spec. split; [done|].
  apply Qlt_le_trans with (now - start_time j)%Q; [done|].
  apply Qplus_le_l. exact Hle.
Qed.

(** X10. A reaper cycle only removes records: what it leaves is part of the
    store it was given; running it again at the same time changes nothing;
    and a later cycle leaves nothing that an earlier one would have
    removed. *)
Theorem cleanup_cycle_shrinks now now' (JOBS : gmap string job) :
  cleanup_cycle now JOBS ⊆ JOBS
  /\ cleanup_cycle now (cleanup_cycle now JOBS) = cleanup_cycle now JOBS
  /\ ((now <= now')%Q -> cleanup_cycle now' JOBS ⊆ cleanup_cycle now JOBS).
Proof.
  split; [|split].
  - apply map_subseteq_spec. intros k j. rewrite cleanup_cycle_lookup.
    destruct (JOBS !! k) as [j0|]; [|done]. now destruct (expired now j0).
  - apply map_eq. intros k. rewrite !cleanup_cycle_lookup.
    destruct (JOBS !! k) as [j0|]; [|done].
    destruct (expired now j0) eqn:He; [done|]. now rewrite He.
  - intros Hle. apply map_subseteq_spec. intros k j. rewrite !cleanup_cycle_lookup.
    destruct (JOBS !! k) as [j0|]; [|done].
    destruct (expired now' j0) eqn:He'; [done|].
    destruct (expired now j0) eqn:He; [|done].
    now rewrite (expired_later now now' j0 Hle He) in He'.
Qed.

Lemma cleanup_cycle_shrinks_witness :
  cleanup_cycle 20000 reaper_jobs ⊆ cleanup_cycle 10000 reaper_jobs.
Proof.
  apply (cleanup_cycle_shrinks 10000 20000 reaper_jobs). discriminate.
Defined.

(** X11. A job the reaper has removed stays removed: progress updates and
    hook calls that arrive afterwards for its id are ignored and leave the
    store exactly as the reaper left it. *)
Theorem reaped_job_ignores_late_writes now clock k job_id ops (JOBS : gmap string job) j :
  JOBS !! job_id = Some j ->
  status j = "done" \/ status j = "error" ->
  (3600 < now - start_time j)%Q ->
  Forall (fun o => forall p m, o <> OpCreate p m) ops ->
  run_ops clock k job_id ops (cleanup_cycle now JOBS) = cleanup_cycle now JOBS.
Proof.
  intros Hj Hs Hage Hops.
  assert (Hgone : cleanup_cycle now JOBS !! job_id = None).
  { rewrite cleanup_cycle_lookup, Hj.
    assert (expired now j = true) as -> by now apply expired_spec. done. }
  revert k. induction Hops as [|o ops Ho _ IH]; intros k; simpl; [done|].
  assert (apply_op (clock k) job_id o (cleanup_cycle now JOBS) = cleanup_cycle now JOBS)
    as ->; [|apply IH].
  destruct o as [p m|a|d]; simpl.
  - now destruct (Ho p m).
  - now apply update_lookup_None.
  - unfold hook. now rewrite Hgone.
Qed.

Lemma reaped_job_ignores_late_writes_witness :
  run_ops sample_clock 0 "old-done"
    [OpUpdate (upd "downloading" (Some 50)); OpHook (band_event 500000)]
    (cleanup_cycle 10000 reaper_jobs)
  = cleanup_cycle 10000 reaper_jobs.
Proof.
  apply (reaped_job_ignores_late_writes 10000 sample_clock 0 "old-done" _ reaper_jobs
           (aged_job "done" 3601)); [reflexivity|now left|reflexivity|].
  repeat constructor; discriminate.
Defined.

(** ** The controller: the writes and the answer *)

(** X12. The writes of a request form one job life: none at all when the
    request is refused; otherwise the creation of the record first, then
    phase writes of the controller and calls of the hook, then exactly one
    terminal write ([done] with the file name, or [error] with a message),
    which is the last write. *)
Theorem download_writes_one_job_life P DOWNLOAD_DIR E req :
  fst (download P DOWNLOAD_DIR E req) = []
  \/ exists platform media_type mids t,
       fst (download P DOWNLOAD_DIR E req)
       = (OpCreate platform media_type :: mids ++ [t])%list
       /\ Forall (phase_write (fun _ => True) (fun _ _ => True)) mids
       /\ terminal_write t.
Proof.
  apply download_writes.
  - intros opts url. apply Forall_true. done.
  - intros url resp _. apply Forall_true. done.
Qed.

Section Answer.

Context (P : os_path) (DOWNLOAD_DIR : string) (E : engine).

Lemma early_bind {A C} (m : M A) (f : A -> M C) :
  early_return_ok m -> (forall a, early_return_ok (f a)) -> early_return_ok (bind m f).
Proof.
  destruct m as [w [a|e|r]]; unfold early_return_ok; simpl; intros Hm Hf; try done.
  specialize (Hf a). destruct (f a) as [w' [c|e|r]]; simpl in *; try done.
  destruct Hf as (Hc & Hb & w0 & msg & ->). repeat split; try done.
  exists (w ++ w0)%list, msg. now rewrite app_assoc.
Qed.

Lemma answer_bind {A} job_id platform media_type (m : M A) (f : A -> M response) :
  early_return_ok m -> (forall a, answer_ok E job_id platform media_type (f a)) ->
  answer_ok E job_id platform media_type (bind m f).
Proof.
  destruct m as [w [a|e|r]]; unfold early_return_ok, answer_ok; simpl; intros Hm Hf;
    try done.
  specialize (Hf a). destruct (f a) as [w' [c|e|r]]; simpl in *; try done.
  - destruct Hf as (w0 & f0 & size & -> & Hsize & ->).
    exists (w ++ w0)%list, f0, size. now rewrite app_assoc.
  - destruct Hf as (Hc & Hb & w0 & msg & ->). repeat split; try done.
    exists (w ++ w0)%list, msg. now rewrite app_assoc.
Qed.

Lemma early_plain {A} w (a : A) : early_return_ok (w, Val a).
Proof. exact I. Qed.

Lemma early_raise_any {A} w e : @early_return_ok A (w, Raise e).
Proof. exact I. Qed.

Lemma early_write_chunks total_size downloaded chunks :
  early_return_ok (write_chunks total_size downloaded chunks).
Proof.
  revert downloaded. induction chunks as [|len rest IH]; intros downloaded; simpl; [done|].
  destruct (len =? 0); [apply IH|].
  apply early_bind; [now destruct (0 <? total_size)|intros _; apply IH].
Qed.

Lemma early_download_image_directly info :
  early_return_ok (download_image_directly P DOWNLOAD_DIR E info).
Proof.
  unfold download_image_directly.
  apply early_bind; [done|intros _].
  destruct (if str_truthy (i_thumbnail info) then _ else _) as [image_url|]; [|done].
  destruct (negb (Text.nonempty image_url)); [done|].
  apply early_bind; [done|intros _]. apply early_bind; [done|intros _].
  destruct (requests_get E image_url) as [msg|resp]; [done|].
  destruct (status_error resp); [done|].
  apply early_bind; [done|intros _].
  apply early_bind; [apply early_write_chunks|intros downloaded].
  apply early_bind; [done|intros _].
  now destruct (_ || _).
Qed.

Lemma early_photo_handling url platform info :
  early_return_ok (photo_handling P DOWNLOAD_DIR E url platform info).
Proof.
  unfold photo_handling.
  pose proof (early_download_image_directly info) as Himg.
  destruct (download_image_directly P DOWNLOAD_DIR E info) as [w [a|e|r]];
    unfold try_except; [done| |done].
  destruct (negb _); [|done]. unfold early_return_ok. simpl.
  split; [done|]. split; [eauto|]. exists w. eexists. reflexivity.
Qed.

Lemma early_engine_handling ydl_opts url media_type :
  early_return_ok (engine_handling P DOWNLOAD_DIR E ydl_opts url media_type).
Proof.
  unfold engine_handling. apply early_bind; [done|intros _].
  destruct (fetch E ydl_opts url) as [events result].
  apply early_bind; [done|intros _].
  destruct result as [e|info]; [now destruct (Text.contains _ _)|].
  destruct (prepare_filename E ydl_opts info); [done|].
  apply early_bind; [done|intros _].
  destruct (str_truthy _); [done|]. now destruct (_ || _).
Qed.

Lemma answer_finalize job_id platform media_type final_path disk :
  answer_ok E job_id platform media_type
    (finalize P DOWNLOAD_DIR E job_id platform media_type final_path disk).
Proof.
  unfold finalize. destruct (negb _); [done|].
  destruct (Z.eqb_spec (getsize disk final_path) 0) as [|Hsize]; [done|].
  unfold answer_ok. simpl. eexists [], _, _. split; [reflexivity|]. split; [exact Hsize|].
  reflexivity.
Qed.

Lemma answer_run_job job_id url media_type platform :
  exists w m,
    run_job P DOWNLOAD_DIR E job_id url media_type platform
    = (OpCreate platform media_type :: w, m)
    /\ answer_ok E job_id platform media_type (OpCreate platform media_type :: w, m).
Proof.
  unfold run_job.
  match goal with
  | |- context [tell ?o ;;; ?k] => assert (Hk : answer_ok E job_id platform media_type k)
  end.
  { apply answer_bind; [done|intros _]. apply answer_bind; [done|intros _].
    apply answer_bind; [now destruct (probe E _ url)|].
    intros [info|]; [|done].
    apply answer_bind; [done|intros _].
    apply answer_bind; [|intros found; apply answer_finalize].
    unfold media_handling.
    destruct (String.eqb _ "photo"); [apply early_photo_handling|apply early_engine_handling]. }
  match goal with
  | |- context [tell ?o ;;; ?k] => destruct k as [w m]
  end.
  exists w, m. split; [now destruct m|].
  unfold answer_ok in *. simpl in *. destruct m as [r|e|r]; [| done |].
  - destruct Hk as (w0 & f & size & -> & Hsize & ->).
    exists (OpCreate platform media_type :: w0). eauto.
  - destruct Hk as (Hc & Hb & w0 & msg & ->). repeat split; try done.
    exists (OpCreate platform media_type :: w0), msg. reflexivity.
Qed.

End Answer.


(** X14. A failure of the download phase. When a request passes validation,
    the probe succeeds, the media type is not photo and the engine's
    download raises after some hook calls, the writes are the creation, the
    four phase writes up to [preparing] at 45, the hook calls, and an [error]
    write; the answer is 500 with the same message: the format message when
    the engine's text mentions "format", the text behind "Download failed: "
    otherwise. *)
Theorem fetch_failure_answers_500 P DOWNLOAD_DIR E req info events download_error :
  let url := sanitize_url (r_url req) in
  let media_type := default "Video" (r_mediaType req) in
  let platform := detect_platform url in
  let ydl_opts := make_ydl_opts P DOWNLOAD_DIR (uuid4 E) media_type platform in
  Text.nonempty url = true ->
  Text.startswith "http://" url || Text.startswith "https://" url = true ->
  String.eqb platform "unknown" = false ->
  String.eqb (Text.lower media_type) "photo" = false ->
  probe E ydl_opts url = inr (Some info) ->
  fetch E ydl_opts url = (events, inl download_error) ->
  download P DOWNLOAD_DIR E req
  = ((OpCreate platform media_type
      :: [OpUpdate (upd "starting" (Some 10)); OpUpdate (upd "extracting info" (Some 20));
          OpUpdate (upd "extracting info" (Some 35)); OpUpdate (upd "preparing" (Some 45))]
      ++ map OpHook events ++ [error_write (fetch_failure_message download_error)])%list,
     error_response 500 (fetch_failure_message download_error)).
Proof.
  intros url media_type platform ydl_opts Hne Hscheme Hplat Hphoto Hprobe Hfetch.
  unfold download. fold url media_type platform.
  rewrite Hne, Hscheme, Hplat. cbn [negb].
  unfold run_job. fold ydl_opts. rewrite Hprobe.
  unfold media_handling. rewrite Hphoto.
  unfold engine_handling. rewrite Hfetch. unfold fetch_failure_message.
  destruct (Text.contains "format" _); simpl; rewrite ?app_nil_r; reflexivity.
Qed.

Lemma fetch_failure_answers_500_witness :
  snd (download posixpath "/dl" failing_fetch_engine youtube_request)
  = error_response 500 "No suitable video/audio format found for this content".
Proof.
  rewrite (fetch_failure_answers_500 posixpath "/dl" failing_fetch_engine youtube_request
             clip_info [band_event 500000]
             (DownloadError "Requested format is not available"));
    reflexivity.
Defined.

(** ** The controller: refused requests *)

Lemma lstrip_blank s : string_all Text.is_space s = true -> Text.lstrip s = "".
Proof.
  induction s as [|c s IH]; simpl; [done|]. intros [Hc Hs]%andb_true_iff.
  rewrite Hc. now apply IH.
Qed.

(** X15. A request whose URL is missing, empty or made of white space only
    is answered 400 "URL is required", and nothing is written. *)
Theorem blank_url_is_required P DOWNLOAD_DIR E req :
  string_all Text.is_space (default "" (r_url req)) = true ->
  download P DOWNLOAD_DIR E req = ([], error_response 400 "URL is required").
Proof.
  intros Hblank. unfold download, sanitize_url, Text.strip.
  rewrite (lstrip_blank _ Hblank). reflexivity.
Qed.

Lemma blank_url_is_required_witness :
  download posixpath "/dl" private_engine (mk_request (Some "   ") (Some "Audio"))
  = ([], error_response 400 "URL is required")
  /\ download posixpath "/dl" private_engine (mk_request None None)
     = ([], error_response 400 "URL is required").
Proof.
  split.
  - apply (blank_url_is_required posixpath "/dl" private_engine
             (mk_request (Some "   ") (Some "Audio"))). reflexivity.
  - apply (blank_url_is_required posixpath "/dl" private_engine (mk_request None None)).
    reflexivity.
Defined.

(** X16. A request that is refused without a write was refused by
    validation alone: the answer is the same whatever the engine, the disk,
    the download directory and the path flavour, none of which is
    consulted. *)
Theorem refusal_ignores_engine P DOWNLOAD_DIR E P' DOWNLOAD_DIR' E' req :
  fst (download P DOWNLOAD_DIR E req) = [] ->
  download P' DOWNLOAD_DIR' E' req = download P DOWNLOAD_DIR E req.
Proof.
  unfold download.
  destruct (negb (Text.nonempty _)); [reflexivity|].
  destruct (negb (_ || _)); [reflexivity|].
  destruct (String.eqb _ "unknown"); [reflexivity|].
  intros Hnil. unfold run_job in Hnil.
  match type of Hnil with
  | fst (handle (tell ?o ;;; ?k)) = _ =>
      destruct (handle_after_tell o k) as (rest & r & Heq)
  end.
  rewrite Heq in Hnil. discriminate Hnil.
Qed.

Lemma refusal_ignores_engine_witness :
  download ntpath "C:\dl" private_engine (mk_request (Some "ftp://youtube.com/a") None)
  = download posixpath "/dl" slow_start_engine (mk_request (Some "ftp://youtube.com/a") None).
Proof.
  apply (refusal_ignores_engine posixpath "/dl" slow_start_engine ntpath "C:\dl"
           private_engine (mk_request (Some "ftp://youtube.com/a") None)).
  reflexivity.
Defined.

(** ** The image download: counting the chunks *)

Lemma write_chunks_spec total_size downloaded chunks :
  snd (write_chunks total_size downloaded chunks)
  = Val (downloaded + foldr Z.add 0 chunks)
  /\ fst (write_chunks total_size downloaded chunks)
     = (if 0 <? total_size
        then map (fun dl =>
                    OpUpdate (mk_args "downloading"
                                (Some (80 + Z.quot (raw_pct dl total_size * 15) 100))
                                (Some dl) (Some total_size) None None None))
               (chunk_counts downloaded chunks)
        else []).
Proof.
  revert downloaded. induction chunks as [|len rest IH]; intros downloaded;
    cbn [write_chunks chunk_counts foldr].
  - split; [simpl; f_equal; lia|now destruct (0 <? total_size)].
  - destruct (Z.eqb_spec len 0) as [->|Hlen].
    + destruct (IH downloaded) as [Hs Hf]. rewrite Hs, Hf. split; [f_equal; lia|done].
    + destruct (IH (downloaded + len)) as [Hs Hf].
      destruct (write_chunks total_size (downloaded + len) rest) as [w o].
      simpl in Hs, Hf. subst o w.
      destruct (0 <? total_size); simpl; (split; [f_equal; lia|reflexivity]).
Qed.

(** X17. The loop over the chunks of an image counts exactly the bytes it
    receives, and reports progress once per non-empty chunk when the server
    declared a positive length, with the running byte count, and not at all
    when it declared none. *)
Theorem write_chunks_counts total_size downloaded chunks :
  snd (write_chunks total_size downloaded chunks)
  = Val (downloaded + foldr Z.add 0 chunks)
  /\ fst (write_chunks total_size downloaded chunks)
     = (if 0 <? total_size
        then map (fun dl =>
                    OpUpdate (mk_args "downloading"
                                (Some (80 + Z.quot (raw_pct dl total_size * 15) 100))
                                (Some dl) (Some total_size) None None None))
               (chunk_counts downloaded chunks)
        else []).
Proof. exact (write_chunks_spec total_size downloaded chunks). Qed.

(** ** The progress stream: when and how it ends *)

Lemma stream_loop_finished job_id start_time last_sent last_progress_time polls :
  snd (stream_loop job_id start_time last_sent last_progress_time polls)
  = existsb (poll_stops job_id start_time) polls.
Proof.
  revert last_sent last_progress_time.
  induction polls as [|p polls IH]; intros last_sent last_progress_time;
    cbn [stream_loop existsb]; [done|].
  unfold poll_stops at 1. destruct (p_jobs p !! job_id) as [job|]; [|done].
  destruct (String.eqb (status job) "done"); [done|].
  destruct (String.eqb (status job) "error"); [done|].
  destruct (Qgtb _ timeout_seconds); [done|]. cbn [orb].
  match goal with
  | |- context [stream_loop job_id start_time ?ls ?lp polls] =>
      specialize (IH ls lp); destruct (stream_loop job_id start_time ls lp polls)
  end.
  exact IH.
Qed.

Lemma stream_loop_length job_id start_time last_sent last_progress_time polls :
  (length (fst (stream_loop job_id start_time last_sent last_progress_time polls))
   <= length polls + 1)%nat.
Proof.
  revert last_sent last_progress_time.
  induction polls as [|p polls IH]; intros last_sent last_progress_time;
    cbn [stream_loop]; [simpl; lia|].
  destruct (p_jobs p !! job_id) as [job|]; [|simpl; lia].
  set (send := negb _ || _).
  assert (Hsent : (length (if send then
             [EvPayload (snapshot_of job) (estimate (p_time_estimate p) job)
                (get_status_message (status job) (percent job))] else []) <= 1)%nat)
    by (destruct send; simpl; lia).
  destruct (String.eqb (status job) "done");
    [cbn [fst]; rewrite length_app; simpl; lia|].
  destruct (String.eqb (status job) "error");
    [cbn [fst]; rewrite length_app; simpl; lia|].
  destruct (Qgtb _ timeout_seconds);
    [cbn [fst]; rewrite length_app; simpl; lia|].
  match goal with
  | |- context [stream_loop job_id start_time ?ls ?lp polls] =>
      specialize (IH ls lp); destruct (stream_loop job_id start_time ls lp polls)
  end.
  cbn [fst] in *. rewrite length_app. simpl. lia.
Qed.



(** X18. A stream for a job that is known when the stream starts is
    finished exactly when one of its polls found the job gone, found it
    [done] or [error], or came more than 600 seconds after the start;
    otherwise it is still open, waiting for the next poll. *)
Theorem event_stream_finishes_iff job_id (W : stream_env) :
  is_Some (jobs_at_check W !! job_id) ->
  snd (event_stream job_id W) = existsb (poll_stops job_id (time_start W)) (polls W).
Proof.
  intros [j Hj]. unfold event_stream. rewrite Hj.
  match goal with
  | |- context [stream_loop job_id ?st ?ls ?lp ?ps] =>
      pose proof (stream_loop_finished job_id st ls lp ps) as Hfin;
        destruct (stream_loop job_id st ls lp ps)
  end.
  exact Hfin.
Qed.

Lemma event_stream_finishes_iff_witness :
  snd (event_stream "job" finishing_stream) = true.
Proof.
  rewrite (event_stream_finishes_iff "job" finishing_stream); [reflexivity|].
  vm_compute. eauto.
Defined.

(** X19. A stream yields at most one event per poll besides the initial
    snapshot and the closing event: never more than the number of polls plus
    two. *)
Theorem event_stream_length job_id (W : stream_env) :
  (length (fst (event_stream job_id W)) <= length (polls W) + 2)%nat.
Proof.
  unfold event_stream. destruct (jobs_at_check W !! job_id); [|simpl; lia].
  match goal with
  | |- context [stream_loop job_id ?st ?ls ?lp ?ps] =>
      pose proof (stream_loop_length job_id st ls lp ps) as Hlen;
        destruct (stream_loop job_id st ls lp ps)
  end.
  cbn [fst] in *. rewrite length_app.
  destruct (jobs_at_snapshot W !! job_id); simpl; lia.
Qed.


(** ** Platform detection and URL normalisation *)

Lemma detect_platform_range url :
  In (detect_platform url)
    ["instagram"; "facebook"; "youtube"; "twitter"; "linkedin"; "snapchat"; "unknown"].
Proof.
  unfold detect_platform.
  repeat (match goal with
          | |- context [if ?b then _ else _] => destruct b
          end); simpl; tauto.
Qed.

(** X21. Platform detection ignores the case of the URL, and a job is only
    ever created with one of the six platform names: never with "unknown"
    and never with a name of the client's choosing. *)
Theorem job_platform_is_known P DOWNLOAD_DIR E req :
  (forall url, detect_platform (Text.lower url) = detect_platform url)
  /\ forall platform media_type rest r,
       download P DOWNLOAD_DIR E req = (OpCreate platform media_type :: rest, r) ->
       In platform ["instagram"; "facebook"; "youtube"; "twitter"; "linkedin"; "snapchat"].
Proof.
  split.
  - intros url. unfold detect_platform. now rewrite lower_idempotent.
  - intros platform media_type rest r Hd.
    pose proof (download_creates_or_refuses P DOWNLOAD_DIR E req) as Hgate.
    cbv zeta in Hgate.
    destruct (existsb _ platform_markers) eqn:Hmark in Hgate.
    + destruct (_ && _) in Hgate.
      * destruct Hgate as (rest' & r' & Hd'). rewrite Hd' in Hd.
        injection Hd as <- _ _ _.
        pose proof (detect_platform_unknown (sanitize_url (r_url req))) as Hun.
        rewrite Hmark in Hun. apply String.eqb_neq in Hun.
        pose proof (detect_platform_range (sanitize_url (r_url req))) as Hin.
        simpl in Hin. simpl. intuition congruence.
      * destruct Hgate as [Hnil _]. rewrite Hd in Hnil. discriminate Hnil.
    + rewrite andb_false_r in Hgate.
      destruct Hgate as [Hnil _]. rewrite Hd in Hnil. discriminate Hnil.
Qed.

Lemma job_platform_is_known_witness :
  In "youtube" ["instagram"; "facebook"; "youtube"; "twitter"; "linkedin"; "snapchat"].
Proof.
  eapply (proj2 (job_platform_is_known posixpath "/dl" private_engine
                   (mk_request (Some "https://YOUTU.BE/abc") None))).
  vm_compute. reflexivity.
Defined.

Lemma skip_x_run n t :
  Text.startswith "x" t = false -> skip_x (repeat_x n +:+ t) = (n, t).
Proof.
  intros Ht. induction n as [|n IH].
  - change (repeat_x 0 +:+ t) with t. destruct t as [|c t]; [done|].
    simpl in Ht. destruct (Ascii.eqb_spec "x" c) as [<-|Hne]; [discriminate|].
    simpl. destruct c as [[] [] [] [] [] [] [] []]; try reflexivity. now destruct Hne.
  - cbn [repeat_x]. rewrite append_cons. cbn [skip_x]. now rewrite IH.
Qed.

Lemma skip_x_none t : Text.startswith "x" t = false -> skip_x t = (O, t).
Proof. apply (skip_x_run 0). Qed.

(** X22. What [sanitize_url] does to the scheme. After stripping, a URL
    that begins with one or more letters [x] followed by [http://] or
    [https://] loses the [x] run and gets the scheme [https://]; a URL that
    does not begin with [x] is only stripped, so a plain [http://] URL stays
    [http://]. *)
Theorem sanitize_url_scheme url :
  (forall n rest,
     Text.strip url = repeat_x (S n) +:+ "http://" +:+ rest
     \/ Text.strip url = repeat_x (S n) +:+ "https://" +:+ rest ->
     sanitize_url (Some url) = "https://" +:+ rest)
  /\ (Text.startswith "x" (Text.strip url) = false ->
      sanitize_url (Some url) = Text.strip url).
Proof.
  unfold sanitize_url, re_sub_xhttp. change (default "" (Some url)) with url. split.
  - intros n rest [-> | ->]; rewrite skip_x_run by reflexivity; reflexivity.
  - intros Hx. now rewrite skip_x_none.
Qed.

Lemma sanitize_url_scheme_witness :
  sanitize_url (Some "  xxhttp://youtu.be/a ") = "https://youtu.be/a"
  /\ sanitize_url (Some " http://youtu.be/a") = "http://youtu.be/a".
Proof.
  destruct (sanitize_url_scheme "  xxhttp://youtu.be/a ") as [Hx _].
  destruct (sanitize_url_scheme " http://youtu.be/a") as [_ Hplain].
  split.
  - apply (Hx 1%nat "youtu.be/a"). left. reflexivity.
  - apply Hplain. reflexivity.
Defined.

(** ** The photo branch: its three outcomes *)

Lemma snd_bind_val {A C} w (a : A) (f : A -> M C) : snd (bind (w, Val a) f) = snd (f a).
Proof. simpl. now destruct (f a). Qed.

Lemma snd_update_then {C} a (k : M C) : snd (update a ;;; k) = snd k.
Proof. unfold update, tell. apply snd_bind_val. Qed.

Lemma image_outcome P DOWNLOAD_DIR E info :
  match snd (download_image_directly P DOWNLOAD_DIR E info) with
  | Val found => path_exists (snd found) (fst found) = true
                 /\ getsize (snd found) (fst found) <> 0
  | Raise e => exists m, e = Exception m
  | Return _ => False
  end.
Proof.
  unfold download_image_directly. rewrite snd_update_then.
  destruct (if str_truthy (i_thumbnail info) then _ else _) as [image_url|];
    [|simpl; eauto].
  destruct (negb (Text.nonempty image_url)); [simpl; eauto|].
  rewrite !snd_update_then.
  destruct (requests_get E image_url) as [msg|resp]; [simpl; eauto|].
  destruct (status_error resp); [simpl; eauto|].
  rewrite snd_update_then.
  destruct (write_chunks_spec (content_length resp) 0 (chunks resp)) as [Hs _].
  destruct (write_chunks (content_length resp) 0 (chunks resp)) as [w o].
  simpl in Hs. subst o. rewrite snd_bind_val, snd_update_then.
  destruct (_ || _) eqn:Hcheck; [simpl; eauto|].
  apply orb_false_iff in Hcheck as [Hex Hsize]. simpl.
  apply negb_false_iff in Hex. apply Z.eqb_neq in Hsize. auto.
Qed.


(** ** The controller: where a 400 answer comes from *)

Section Origin.

Context (P : os_path) (DOWNLOAD_DIR : string) (E : engine).

Lemma origin_bind {A C} (m : M A) (f : A -> M C) :
  origin_ok E (snd m) -> (forall a, origin_ok E (snd (f a))) ->
  origin_ok E (snd (bind m f)).
Proof.
  destruct m as [w [a|e|r]]; simpl; intros Hm Hf; try done.
  specialize (Hf a). now destruct (f a).
Qed.

Lemma origin_photo_handling url platform info :
  origin_ok E (snd (photo_handling P DOWNLOAD_DIR E url platform info)).
Proof.
  unfold photo_handling.
  pose proof (image_outcome P DOWNLOAD_DIR E info) as Himg.
  destruct (download_image_directly P DOWNLOAD_DIR E info) as [w [found|e|r]];
    simpl in Himg; [done| |contradiction].
  unfold try_except. now destruct (negb _).
Qed.

Lemma origin_engine_handling ydl_opts url media_type :
  origin_ok E (snd (engine_handling P DOWNLOAD_DIR E ydl_opts url media_type)).
Proof.
  unfold engine_handling. apply origin_bind; [done|intros _].
  destruct (fetch E ydl_opts url) as [events result].
  apply origin_bind; [done|intros _].
  destruct result as [e|info]; [now destruct (Text.contains _ _)|].
  destruct (prepare_filename E ydl_opts info) as [[msg|msg]|prepared] eqn:Hprep;
    [simpl; eauto|done|].
  apply origin_bind; [done|intros _].
  destruct (str_truthy _); [done|]. now destruct (_ || _).
Qed.

Lemma origin_run_job job_id url media_type platform :
  origin_ok E (snd (run_job P DOWNLOAD_DIR E job_id url media_type platform)).
Proof.
  unfold run_job.
  apply origin_bind; [done|intros _]. apply origin_bind; [done|intros _].
  apply origin_bind; [done|intros _].
  apply origin_bind.
  { destruct (probe E _ url) as [e|info]; [|done]. unfold probe_failure. simpl.
    repeat (match goal with
            | |- context [if ?b then _ else _] => destruct b
            end); done. }
  intros [info|]; [|done].
  apply origin_bind; [done|intros _].
  apply origin_bind.
  - unfold media_handling.
    destruct (String.eqb _ "photo");
      [apply origin_photo_handling|apply origin_engine_handling].
  - intros found. unfold finalize. destruct (negb _); [done|].
    destruct (_ =? 0); [done|]. apply origin_bind; done.
Qed.

End Origin.

(** X24. Where a 400 answer comes from. A request answered 400 was either
    refused by validation (nothing written), or is a photo request answered
    with the wrong-kind message, or ran into a [DownloadError] raised by
    [prepare_filename]. No failure of the probe or of the download itself is
    ever answered 400. *)
Theorem download_400_origin P DOWNLOAD_DIR E req :
  code (snd (download P DOWNLOAD_DIR E req)) = 400 ->
  fst (download P DOWNLOAD_DIR E req) = []
  \/ snd (download P DOWNLOAD_DIR E req) = wrong_kind_response
  \/ exists opts info msg,
       prepare_filename E opts info = inl (DownloadError msg)
       /\ snd (download P DOWNLOAD_DIR E req) = error_response 400 (friendly_message msg).
Proof.
  unfold download.
  destruct (negb (Text.nonempty _)); [now left|].
  destruct (negb (_ || _)); [now left|].
  destruct (String.eqb _ "unknown"); [now left|].
  pose proof (origin_run_job P DOWNLOAD_DIR E (uuid4 E) (sanitize_url (r_url req))
                (default "Video" (r_mediaType req))
                (detect_platform (sanitize_url (r_url req)))) as Horigin.
  pose proof (answer_run_job P DOWNLOAD_DIR E (uuid4 E) (sanitize_url (r_url req))
                (default "Video" (r_mediaType req))
                (detect_platform (sanitize_url (r_url req)))) as (w & m & Hrun & Hok).
  rewrite Hrun in *. unfold answer_ok in Hok. simpl in Horigin, Hok.
  destruct m as [r|[msg|msg]|r]; simpl.
  - destruct Hok as (w0 & f & size & _ & _ & ->). discriminate.
  - intros _. right. right. destruct Horigin as (opts & info & Hprep). eauto.
  - discriminate.
  - intros _. right. now left.
Qed.

Lemma download_400_origin_witness :
  snd (download posixpath "/dl" (sample_engine (inr (Some clip_info)) [])
         video_as_photo_request)
  = wrong_kind_response.
Proof.
  destruct (download_400_origin posixpath "/dl" (sample_engine (inr (Some clip_info)) [])
              video_as_photo_request) as [Hnil|[Hwrong|(opts & info & msg & Hprep & _)]].
  - reflexivity.
  - discriminate Hnil.
  - exact Hwrong.
  - discriminate Hprep.
Defined.


(** ** The status vocabulary *)

Lemma update_status_known now job_id a (JOBS : gmap string job) :
  In (a_status a) job_statuses ->
  status_known job_id JOBS -> status_known job_id (update_job_progress now job_id a JOBS).
Proof.
  intros Ha (j & Hj & Hs). exists (update_record now a j).
  split; [now apply update_lookup_same|]. simpl.
  now destruct (Text.nonempty (a_status a)).
Qed.

Lemma apply_op_status_known now job_id o (JOBS : gmap string job) :
  phase_write (fun _ => True) (fun _ _ => True) o \/ terminal_write o ->
  status_known job_id JOBS -> status_known job_id (apply_op now job_id o JOBS).
Proof.
  intros [Ho|Ho] HJ; destruct Ho; cbn [apply_op];
    try (apply update_status_known; [simpl; tauto|exact HJ]).
  - apply update_status_known; [|exact HJ]. unfold controller_phases in *. simpl in *.
    repeat (match goal with H : _ \/ _ |- _ => destruct H as [[= <- <-]|H] end); tauto.
  - destruct HJ as (j & Hj & Hs).
    destruct (hook_cases now job_id d JOBS j Hj) as [->|(a & -> & _ & Ha & _)];
      [now exists j|].
    apply update_status_known; [|now exists j].
    simpl. destruct Ha as [Ha|[Ha|Ha]]; rewrite Ha; tauto.
Qed.

(** X25. The status vocabulary is closed. At every moment of a request
    after the creation of its job, the status of the record is one of the
    nine statuses that [get_status_message] has a message for (queued,
    starting, extracting info, preparing, downloading, processing, finding
    file, done, error); for these the message comes from the table: the
    default "Processing... N%" is never what a stream shows for a job of
    [download]. *)
Theorem job_status_vocabulary P DOWNLOAD_DIR E req clock (JOBS : gmap string job) :
  Forall (status_known (uuid4 E))
    (history clock 0 (uuid4 E) (fst (download P DOWNLOAD_DIR E req)) JOBS)
  /\ forall st p,
       In st job_statuses ->
       get_status_message st p <> "Processing... " +:+ pretty p +:+ "%".
Proof.
  split.
  - destruct (download_writes P DOWNLOAD_DIR E (fun _ => True) (fun _ _ => True)
                (fun opts url => Forall_true _ _ (fun _ => I))
                (fun url resp _ => Forall_true _ _ (fun _ => I)) req)
      as [->|(platform & media_type & mids & t & -> & Hmids & Ht)]; [constructor|].
    assert (H1 : status_known (uuid4 E)
                   (apply_op (clock 0%nat) (uuid4 E) (OpCreate platform media_type) JOBS)).
    { exists (new_job platform media_type (clock 0%nat)). cbn [apply_op].
      rewrite lookup_insert_eq. split; [done|]. simpl. tauto. }
    cbn [history]. constructor; [exact H1|].
    eapply (history_invariant (status_known (uuid4 E)) _ clock (uuid4 E)
              (fun now o J => apply_op_status_known now (uuid4 E) o J)); [|exact H1].
    apply Forall_app. split.
    + eapply Forall_impl; [exact Hmids|]. intros o Ho. now left.
    + constructor; [now right|constructor].
  - intros st p Hst. unfold job_statuses in Hst. simpl in Hst.
    repeat (destruct Hst as [<-|Hst]; [cbn; rewrite ?append_cons; congruence|]).
    contradiction.
Qed.

Lemma job_status_vocabulary_witness :
  get_status_message "finding file" 90 <> "Processing... " +:+ pretty 90 +:+ "%".
Proof.
  apply (proj2 (job_status_vocabulary posixpath "/dl" private_engine youtube_request
                  sample_clock ∅)).
  simpl. tauto.
Defined.
